(** * Firma digital: the codec, the key texts and the two-party workflow

    A shallow embedding of [src/FirmaDigitalCompleto.jsx].  The helpers of the
    file ([bufToBase64], [base64ToBuf], [pemEncode], [pemToBase64], the PEM
    export and import of keys) are pure functions here; the handlers of the
    component are functions from the component state of one render to the
    state after the handler, with the alerts it raised and the way its
    promise settled.  The cryptographic provider ([crypto.subtle]) is an
    interface, [Host], over which the workflow is stated. *)

From Stdlib Require Import String Ascii NArith ZArith Bool Arith Lia List.
From Stdlib.Strings Require Import Byte.
Import ListNotations.

Local Open Scope N_scope.

(** ** JavaScript strings

    A JavaScript string is a sequence of UTF-16 code units.  Both regular
    expressions of the source are written without the [u] flag, so they too
    work on code units. *)

Definition jsstring := list N.

(** Literals of the source are written as Rocq strings, whose bytes are the
    UTF-8 encoding of the text; [js] turns them into code units.  Every
    literal of the source lies in the Basic Multilingual Plane, so sequences
    of one, two and three bytes are all that occur. *)
Fixpoint utf16_of_utf8 (l : list N) : jsstring :=
  match l with
  | [] => []
  | b0 :: t =>
      if b0 <? 0x80 then b0 :: utf16_of_utf8 t
      else if b0 <? 0xE0 then
        match t with
        | b1 :: t1 => ((b0 mod 32) * 64 + b1 mod 64) :: utf16_of_utf8 t1
        | [] => [0xFFFD]
        end
      else
        match t with
        | b1 :: b2 :: t2 =>
            ((b0 mod 16) * 4096 + (b1 mod 64) * 64 + b2 mod 64)
              :: utf16_of_utf8 t2
        | _ => [0xFFFD]
        end
  end.

Definition js (s : string) : jsstring :=
  utf16_of_utf8 (map N_of_ascii (list_ascii_of_string s)).

(** [a === b] on strings. *)
Fixpoint str_eqb (a b : jsstring) : bool :=
  match a, b with
  | [], [] => true
  | x :: a', y :: b' => (x =? y) && str_eqb a' b'
  | _, _ => false
  end.

(** [!s] on a string: only the empty string is falsy. *)
Definition is_empty (s : jsstring) : bool :=
  match s with [] => true | _ :: _ => false end.

(** ** Binary data *)

Definition bytes := list byte.

(** Storing a number into a [Uint8Array] keeps its low eight bits. *)
Definition u8 (n : N) : byte :=
  match Byte.of_N (n mod 256) with
  | Some b => b
  | None => x00
  end.

(** [String.fromCharCode(...new Uint8Array(buffer))] *)
Definition fromCharCode (buffer : bytes) : jsstring := map Byte.to_N buffer.

(** ** Base64: [btoa] and [atob]

    The two functions are the browser's; they are modelled after the
    forgiving-base64 encode and decode of the WHATWG Infra standard, which
    is what [btoa] and [atob] are specified to run. *)

Definition pad : N := 61.   (* = *)

(** The character of a six-bit value. *)
Definition b64_char (v : N) : N :=
  if v <? 26 then 65 + v              (* A-Z *)
  else if v <? 52 then 97 + (v - 26)  (* a-z *)
  else if v <? 62 then 48 + (v - 52)  (* 0-9 *)
  else if v =? 62 then 43             (* + *)
  else 47.                            (* / *)

(** The six-bit value of a character of the alphabet. *)
Definition b64_val (c : N) : option N :=
  if (65 <=? c) && (c <=? 90) then Some (c - 65)
  else if (97 <=? c) && (c <=? 122) then Some (c - 97 + 26)
  else if (48 <=? c) && (c <=? 57) then Some (c - 48 + 52)
  else if c =? 43 then Some 62
  else if c =? 47 then Some 63
  else None.

Definition is_b64 (c : N) : bool :=
  match b64_val c with Some _ => true | None => false end.

Definition val (c : N) : N :=
  match b64_val c with Some v => v | None => 0 end.

(** Three bytes give four characters; a last group of one or two bytes is
    padded with [=]. *)
Fixpoint base64_encode (l : list N) : jsstring :=
  match l with
  | [] => []
  | [a] => [b64_char (a / 4); b64_char ((a mod 4) * 16); pad; pad]
  | [a; b] =>
      [b64_char (a / 4); b64_char ((a mod 4) * 16 + b / 16);
       b64_char ((b mod 16) * 4); pad]
  | a :: b :: c :: rest =>
      b64_char (a / 4) :: b64_char ((a mod 4) * 16 + b / 16)
        :: b64_char ((b mod 16) * 4 + c / 64) :: b64_char (c mod 64)
        :: base64_encode rest
  end.

(** [btoa(s)]: throws [InvalidCharacterError] ([None]) when [s] holds a code
    unit above 255. *)
Definition btoa (s : jsstring) : option jsstring :=
  if forallb (fun c => c <=? 255) s then Some (base64_encode s) else None.

(** ASCII whitespace: TAB, LF, FF, CR and SPACE. *)
Definition is_ascii_ws (c : N) : bool :=
  (c =? 9) || (c =? 10) || (c =? 12) || (c =? 13) || (c =? 32).

Definition strip_ascii_ws (s : jsstring) : jsstring :=
  filter (fun c => negb (is_ascii_ws c)) s.

(** "If data ends with one or two [=], remove them." *)
Fixpoint strip_padding (d : jsstring) : jsstring :=
  match d with
  | [] => []
  | [c] => if c =? pad then [] else [c]
  | [c1; c2] =>
      if c2 =? pad then (if c1 =? pad then [] else [c1]) else [c1; c2]
  | c :: rest => c :: strip_padding rest
  end.

(** Four characters give three bytes; of a last group of three characters
    the low two bits are dropped, of a last group of two the low four. *)
Fixpoint base64_decode (d : jsstring) : jsstring :=
  match d with
  | a :: b :: c :: e :: rest =>
      let n := val a * 262144 + val b * 4096 + val c * 64 + val e in
      (n / 65536) :: ((n / 256) mod 256) :: (n mod 256) :: base64_decode rest
  | [a; b; c] =>
      let n := val a * 4096 + val b * 64 + val c in
      [n / 1024; (n / 4) mod 256]
  | [a; b] =>
      let n := val a * 64 + val b in
      [n / 16]
  | _ => []
  end.

(** What is left of the text when whitespace and padding are gone. *)
Definition atob_payload (s : jsstring) : jsstring :=
  let d := strip_ascii_ws s in
  if (N.of_nat (length d) mod 4 =? 0) then strip_padding d else d.

(** [atob(s)]: throws [InvalidCharacterError] ([None]) when the payload has
    a length that leaves 1 modulo 4 or holds a character outside the
    alphabet. *)
Definition atob (s : jsstring) : option jsstring :=
  let d := atob_payload s in
  if N.of_nat (length d) mod 4 =? 1 then None
  else if negb (forallb is_b64 d) then None
  else Some (base64_decode d).

(** [bufToBase64(buffer)], for a buffer the engine takes as the arguments
    of one call: [String.fromCharCode(...bytes)] throws a [RangeError] on a
    buffer longer than that, which no buffer of the workflow is (keys and
    signatures of RSA-2048).  Statements about every buffer are therefore
    made under the hypothesis that the function returned. *)
Definition bufToBase64 (buffer : bytes) : option jsstring :=
  btoa (fromCharCode buffer).

(** [base64ToBuf(base64)]: the loop stores [binary.charCodeAt(i)] into a
    [Uint8Array] of the same length. *)
Definition base64ToBuf (base64 : jsstring) : option bytes :=
  match atob base64 with
  | Some binary => Some (map u8 binary)
  | None => None
  end.

(** ** Regular expressions

    [.] matches every code unit but a line terminator; [\s] matches white
    space and line terminators. *)

Definition is_line_terminator (c : N) : bool :=
  (c =? 10) || (c =? 13) || (c =? 0x2028) || (c =? 0x2029).

Definition is_space (c : N) : bool :=
  (c =? 9) || (c =? 10) || (c =? 11) || (c =? 12) || (c =? 13) || (c =? 32)
  || (c =? 0xA0) || (c =? 0x1680) || ((0x2000 <=? c) && (c <=? 0x200A))
  || (c =? 0x2028) || (c =? 0x2029) || (c =? 0x202F) || (c =? 0x205F)
  || (c =? 0x3000) || (c =? 0xFEFF).

(** A global ([/g]) scan cuts the text into the code units no match covers
    and the matches, from left to right.  [re s] is the length of the match
    of the expression at the head of [s], if there is one; after a match the
    scan goes on behind it ([skip] counts the code units of the match still
    to pass), after a failure one code unit further.  Neither expression of
    the source matches the empty string. *)
Inductive token : Type :=
| Kept (c : N)
| Matched (m : jsstring).

Fixpoint scan (re : jsstring -> option nat) (skip : nat) (s : jsstring)
  : list token :=
  match s with
  | [] => []
  | c :: s' =>
      match skip with
      | S k => scan re k s'
      | O =>
          match re s with
          | Some (S k) => Matched (firstn (S k) s) :: scan re k s'
          | _ => Kept c :: scan re O s'
          end
      end
  end.

Fixpoint kept (ts : list token) : jsstring :=
  match ts with
  | [] => []
  | Kept c :: r => c :: kept r
  | Matched _ :: r => kept r
  end.

Fixpoint matched (ts : list token) : list jsstring :=
  match ts with
  | [] => []
  | Kept _ :: r => matched r
  | Matched m :: r => m :: matched r
  end.

(** [s.replace(re, '')] with a global [re]. *)
Definition replace_all (re : jsstring -> option nat) (s : jsstring)
  : jsstring :=
  kept (scan re O s).

(** [s.match(re)] with a global [re]: the array of the matches, or [null]
    ([None]) when there is none. *)
Definition match_all (re : jsstring -> option nat) (s : jsstring)
  : option (list jsstring) :=
  match matched (scan re O s) with
  | [] => None
  | ms => Some ms
  end.

Fixpoint strip_prefix (p s : jsstring) : option jsstring :=
  match p, s with
  | [], _ => Some s
  | x :: p', y :: s' => if x =? y then strip_prefix p' s' else None
  | _ :: _, [] => None
  end.

(** The longest run of [.] at the head of the text. *)
Fixpoint dots (s : jsstring) : jsstring :=
  match s with
  | [] => []
  | c :: s' => if is_line_terminator c then [] else c :: dots s'
  end.

(** The last place of [l] where [p] starts. *)
Fixpoint last_index (p l : jsstring) : option nat :=
  match l with
  | [] => None
  | _ :: l' =>
      match last_index p l' with
      | Some j => Some (S j)
      | None =>
          match strip_prefix p l with
          | Some _ => Some O
          | None => None
          end
      end
  end.

Definition dashes : jsstring := js "-----".

(** [/-----.*-----/]: five dashes, then the greedy [.*] runs to the end of
    the line and gives back until five dashes follow it, so the match ends
    with the last five dashes of the line. *)
Definition re_delimiter (s : jsstring) : option nat :=
  match strip_prefix dashes s with
  | None => None
  | Some rest =>
      match last_index dashes (dots rest) with
      | Some j => Some (5 + j + 5)%nat
      | None => None
      end
  end.

Fixpoint count_while (f : N -> bool) (n : nat) (s : jsstring) : nat :=
  match n, s with
  | S n', c :: s' => if f c then S (count_while f n' s') else O
  | _, _ => O
  end.

(** [/.{1,64}/]: up to 64 code units of one line, at least one. *)
Definition re_line64 (s : jsstring) : option nat :=
  match count_while (fun c => negb (is_line_terminator c)) 64 s with
  | O => None
  | n => Some n
  end.

(** [/\s+/]: a run of white space. *)
Definition re_spaces (s : jsstring) : option nat :=
  match count_while is_space (length s) s with
  | O => None
  | n => Some n
  end.

(** [lines.join(sep)] *)
Fixpoint join (sep : jsstring) (l : list jsstring) : jsstring :=
  match l with
  | [] => []
  | [a] => a
  | a :: r => a ++ sep ++ join sep r
  end.

Definition nl : jsstring := [10].

(** ** PEM armor *)

(** [pemEncode(base64, tag)]: [None] is the [TypeError] of [null.join],
    thrown when [base64] has no match of [/.{1,64}/]. *)
Definition pemEncode (base64 tag : jsstring) : option jsstring :=
  match match_all re_line64 base64 with
  | None => None
  | Some lines =>
      Some (js "-----BEGIN " ++ tag ++ js "-----" ++ nl
              ++ join nl lines ++ nl
              ++ js "-----END " ++ tag ++ js "-----")
  end.

(** [pemToBase64(pem)] *)
Definition pemToBase64 (pem : jsstring) : jsstring :=
  replace_all re_spaces (replace_all re_delimiter pem).



(** ** TextEncoder

    [new TextEncoder().encode(s)]: the UTF-8 bytes of the string; a
    surrogate pair is one code point, a surrogate that stands alone is
    encoded as U+FFFD. *)

Definition is_high_surrogate (c : N) : bool :=
  (0xD800 <=? c) && (c <=? 0xDBFF).

Definition is_low_surrogate (c : N) : bool :=
  (0xDC00 <=? c) && (c <=? 0xDFFF).

Definition utf8_of_code_point (p : N) : bytes :=
  if p <? 0x80 then [u8 p]
  else if p <? 0x800 then [u8 (0xC0 + p / 64); u8 (0x80 + p mod 64)]
  else if p <? 0x10000 then
    [u8 (0xE0 + p / 4096); u8 (0x80 + (p / 64) mod 64); u8 (0x80 + p mod 64)]
  else
    [u8 (0xF0 + p / 262144); u8 (0x80 + (p / 4096) mod 64);
     u8 (0x80 + (p / 64) mod 64); u8 (0x80 + p mod 64)].

Definition replacement : bytes := utf8_of_code_point 0xFFFD.

Fixpoint encode (s : jsstring) : bytes :=
  match s with
  | [] => []
  | c :: rest =>
      if is_high_surrogate c then
        match rest with
        | d :: rest' =>
            if is_low_surrogate d
            then utf8_of_code_point
                   (0x10000 + (c - 0xD800) * 1024 + (d - 0xDC00))
                   ++ encode rest'
            else replacement ++ encode rest
        | [] => replacement
        end
      else if is_low_surrogate c then replacement ++ encode rest
      else utf8_of_code_point c ++ encode rest
  end.

(** ** Exceptions and the provider *)

(** Of an exception the source reads [err.message] only. *)
Record JsError : Type := { message : jsstring }.

Inductive Result (A : Type) : Type :=
| Ok (a : A)
| Throw (e : JsError).

Arguments Ok {A} a.
Arguments Throw {A} e.

Definition bind {A B : Type} (r : Result A) (k : A -> Result B) : Result B :=
  match r with
  | Ok a => k a
  | Throw e => Throw e
  end.

Notation "x <- r ;; k" := (bind r (fun x => k))
  (at level 61, r at next level, right associativity).

(** The exception [e] where the pure function has no result. *)
Definition orThrow {A : Type} (e : JsError) (o : option A) : Result A :=
  match o with
  | Some a => Ok a
  | None => Throw e
  end.

Inductive KeyFormat : Type := Spki | Pkcs8.

Record CryptoKeyPair (K : Type) : Type :=
  { privateKey : K; publicKey : K }.

Arguments privateKey {K} _.
Arguments publicKey {K} _.

(** The browser as the source uses it.  The operations of [crypto.subtle]
    are the calls of the source, with the algorithm of the source
    (RSASSA-PKCS1-v1_5, modulus of 2048 bits, exponent 65537, SHA-256)
    fixed; [subtle_importKey] imports for ['verify'].  A key generation
    draws randomness, [Seed]; every other operation is a function of its
    arguments.  The two exceptions are the objects the engine throws from
    [atob] and [btoa], and for a property read on [null]. *)
Class Host : Type := {
  CryptoKey : Type;
  Seed : Type;
  subtle_generateKey : Seed -> Result (CryptoKeyPair CryptoKey);
  subtle_exportKey : KeyFormat -> CryptoKey -> Result bytes;
  subtle_importKey : KeyFormat -> bytes -> Result CryptoKey;
  subtle_sign : CryptoKey -> bytes -> Result bytes;
  subtle_verify : CryptoKey -> bytes -> bytes -> Result bool;
  InvalidCharacterError : JsError;
  NullTypeError : JsError
}.

(** The outcomes of a verification, and the text the component shows for
    each. *)
Inductive VerificationOutcome : Type :=
| Authentic
| Invalid
| TamperDetected
| Error (reason : jsstring).

Definition outcome_text (o : VerificationOutcome) : jsstring :=
  match o with
  | Authentic => js "✔ Firma válida — El mensaje es auténtico."
  | Invalid => js "❌ Firma inválida — Clave incorrecta o mensaje alterado."
  | TamperDetected => js "❌ ATAQUE DETECTADO — El mensaje fue modificado."
  | Error reason => js "Error verificando: " ++ reason
  end.

(** The marker the simulated attack appends. *)
Definition attack_suffix : jsstring := js " [MODIFICADO POR ATAQUE]".

Section Workflow.

Context {host : Host}.

(** *** Helpers over the provider *)

Definition generateKeyPair (seed : Seed) : Result (CryptoKeyPair CryptoKey) :=
  subtle_generateKey seed.

Definition exportPublicKeyToPEM (key : CryptoKey) : Result jsstring :=
  spki <- subtle_exportKey Spki key ;;
  b64 <- orThrow InvalidCharacterError (bufToBase64 spki) ;;
  orThrow NullTypeError (pemEncode b64 (js "PUBLIC KEY")).

Definition exportPrivateKeyToPEM (key : CryptoKey) : Result jsstring :=
  pkcs8 <- subtle_exportKey Pkcs8 key ;;
  b64 <- orThrow InvalidCharacterError (bufToBase64 pkcs8) ;;
  orThrow NullTypeError (pemEncode b64 (js "PRIVATE KEY")).

Definition importPublicKeyFromPEM (pem : jsstring) : Result CryptoKey :=
  buf <- orThrow InvalidCharacterError (base64ToBuf (pemToBase64 pem)) ;;
  subtle_importKey Spki buf.

Definition signMessage (key : CryptoKey) (data : bytes) : Result bytes :=
  subtle_sign key data.

Definition verifySignature (key : CryptoKey) (signature data : bytes)
  : Result bool :=
  subtle_verify key signature data.

(** *** The state of the component: one field for each [useState] *)

Record State : Type := {
  privKeyA : option CryptoKey;
  pubKeyA : option CryptoKey;
  privPemA : jsstring;
  pubPemA : jsstring;
  pubKeyB : option CryptoKey;
  pubPemB : jsstring;
  mensaje : jsstring;
  originalMensaje : jsstring;
  firmaB64 : jsstring;
  verificacion : jsstring
}.

Definition initial : State :=
  {| privKeyA := None; pubKeyA := None; privPemA := []; pubPemA := [];
     pubKeyB := None; pubPemB := []; mensaje := []; originalMensaje := [];
     firmaB64 := []; verificacion := [] |}.

Definition setPrivKeyA (v : option CryptoKey) (s : State) : State :=
  {| privKeyA := v; pubKeyA := pubKeyA s; privPemA := privPemA s;
     pubPemA := pubPemA s; pubKeyB := pubKeyB s; pubPemB := pubPemB s;
     mensaje := mensaje s; originalMensaje := originalMensaje s;
     firmaB64 := firmaB64 s; verificacion := verificacion s |}.

Definition setPubKeyA (v : option CryptoKey) (s : State) : State :=
  {| privKeyA := privKeyA s; pubKeyA := v; privPemA := privPemA s;
     pubPemA := pubPemA s; pubKeyB := pubKeyB s; pubPemB := pubPemB s;
     mensaje := mensaje s; originalMensaje := originalMensaje s;
     firmaB64 := firmaB64 s; verificacion := verificacion s |}.

Definition setPrivPemA (v : jsstring) (s : State) : State :=
  {| privKeyA := privKeyA s; pubKeyA := pubKeyA s; privPemA := v;
     pubPemA := pubPemA s; pubKeyB := pubKeyB s; pubPemB := pubPemB s;
     mensaje := mensaje s; originalMensaje := originalMensaje s;
     firmaB64 := firmaB64 s; verificacion := verificacion s |}.

Definition setPubPemA (v : jsstring) (s : State) : State :=
  {| privKeyA := privKeyA s; pubKeyA := pubKeyA s; privPemA := privPemA s;
     pubPemA := v; pubKeyB := pubKeyB s; pubPemB := pubPemB s;
     mensaje := mensaje s; originalMensaje := originalMensaje s;
     firmaB64 := firmaB64 s; verificacion := verificacion s |}.

Definition setPubKeyB (v : option CryptoKey) (s : State) : State :=
  {| privKeyA := privKeyA s; pubKeyA := pubKeyA s; privPemA := privPemA s;
     pubPemA := pubPemA s; pubKeyB := v; pubPemB := pubPemB s;
     mensaje := mensaje s; originalMensaje := originalMensaje s;
     firmaB64 := firmaB64 s; verificacion := verificacion s |}.

Definition setPubPemB (v : jsstring) (s : State) : State :=
  {| privKeyA := privKeyA s; pubKeyA := pubKeyA s; privPemA := privPemA s;
     pubPemA := pubPemA s; pubKeyB := pubKeyB s; pubPemB := v;
     mensaje := mensaje s; originalMensaje := originalMensaje s;
     firmaB64 := firmaB64 s; verificacion := verificacion s |}.

Definition setMensaje (v : jsstring) (s : State) : State :=
  {| privKeyA := privKeyA s; pubKeyA := pubKeyA s; privPemA := privPemA s;
     pubPemA := pubPemA s; pubKeyB := pubKeyB s; pubPemB := pubPemB s;
     mensaje := v; originalMensaje := originalMensaje s;
     firmaB64 := firmaB64 s; verificacion := verificacion s |}.

Definition setOriginalMensaje (v : jsstring) (s : State) : State :=
  {| privKeyA := privKeyA s; pubKeyA := pubKeyA s; privPemA := privPemA s;
     pubPemA := pubPemA s; pubKeyB := pubKeyB s; pubPemB := pubPemB s;
     mensaje := mensaje s; originalMensaje := v;
     firmaB64 := firmaB64 s; verificacion := verificacion s |}.

Definition setFirmaB64 (v : jsstring) (s : State) : State :=
  {| privKeyA := privKeyA s; pubKeyA := pubKeyA s; privPemA := privPemA s;
     pubPemA := pubPemA s; pubKeyB := pubKeyB s; pubPemB := pubPemB s;
     mensaje := mensaje s; originalMensaje := originalMensaje s;
     firmaB64 := v; verificacion := verificacion s |}.

Definition setVerificacion (v : jsstring) (s : State) : State :=
  {| privKeyA := privKeyA s; pubKeyA := pubKeyA s; privPemA := privPemA s;
     pubPemA := pubPemA s; pubKeyB := pubKeyB s; pubPemB := pubPemB s;
     mensaje := mensaje s; originalMensaje := originalMensaje s;
     firmaB64 := firmaB64 s; verificacion := v |}.

(** *** Handlers

    A handler reads the state of the render it was created in and queues
    updates; the operations never overlap, so it is a function from the
    state before to the state after.  [alerts] are the texts it showed, in
    order.  An [async] handler returns a promise: [Fulfilled] when the body
    returned, [Rejected err] when an exception left the body, in which case
    nothing after the throwing statement ran. *)

Inductive Settled : Type :=
| Fulfilled
| Rejected (err : JsError).

Record Run : Type :=
  { st : State; alerts : list jsstring; settled : Settled }.

Definition finish (s : State) (shown : list jsstring) : Run :=
  {| st := s; alerts := shown; settled := Fulfilled |}.

Definition reject (s : State) (err : JsError) : Run :=
  {| st := s; alerts := []; settled := Rejected err |}.

Definition handleGenerarClaves (seed : Seed) (s : State) : Run :=
  match generateKeyPair seed with
  | Throw err => finish s [js "Error generando claves: " ++ message err]
  | Ok pair' =>
      let s1 :=
        setPubKeyA (Some (publicKey pair'))
          (setPrivKeyA (Some (privateKey pair')) s) in
      match
        privPem <- exportPrivateKeyToPEM (privateKey pair') ;;
        pubPem <- exportPublicKeyToPEM (publicKey pair') ;;
        Ok (privPem, pubPem)
      with
      | Throw err => finish s1 [js "Error generando claves: " ++ message err]
      | Ok (privPem, pubPem) =>
          finish (setPubPemA pubPem (setPrivPemA privPem s1))
            [js "Claves generadas correctamente."]
      end
  end.

Definition handleFirmar (s : State) : Run :=
  match privKeyA s with
  | None => finish s [js "Primero genera la clave privada."]
  | Some key =>
      if is_empty (mensaje s) then finish s [js "Escribe un mensaje."]
      else
        let s1 := setOriginalMensaje (mensaje s) s in
        let data := encode (mensaje s) in
        match
          sig <- signMessage key data ;;
          orThrow InvalidCharacterError (bufToBase64 sig)
        with
        | Ok firma =>
            finish (setFirmaB64 firma s1)
              [js "Mensaje firmado correctamente."]
        | Throw err => finish s1 [js "Error firmando: " ++ message err]
        end
  end.

Definition handleImportarPubEnReceptor (s : State) : Run :=
  if is_empty (pubPemB s) then finish s [js "Pega una clave pública PEM."]
  else
    match importPublicKeyFromPEM (pubPemB s) with
    | Ok imported =>
        finish (setPubKeyB (Some imported) s)
          [js "Clave pública importada correctamente."]
    | Throw err => finish s [js "Error importando clave: " ++ message err]
    end.

(** The signature is decoded before the [try] block is entered: an
    exception of [base64ToBuf] leaves the handler. *)
Definition handleVerificar (s : State) : Run :=
  match pubKeyB s with
  | None => finish s [js "Importa la clave pública primero."]
  | Some key =>
      if is_empty (firmaB64 s) then finish s [js "Pega o genera una firma."]
      else
        let data := encode (mensaje s) in
        match base64ToBuf (firmaB64 s) with
        | None => reject s InvalidCharacterError
        | Some sigBuf =>
            match verifySignature key sigBuf data with
            | Ok esValido =>
                if negb esValido
                   && negb (str_eqb (mensaje s) (originalMensaje s))
                then
                  finish (setVerificacion (outcome_text TamperDetected) s) []
                else
                  finish
                    (setVerificacion
                       (if esValido then outcome_text Authentic
                        else outcome_text Invalid) s) []
            | Throw err =>
                finish
                  (setVerificacion (outcome_text (Error (message err))) s) []
            end
        end
  end.

(** The handlers written in the markup. *)

(** [onChange] of the message box. *)
Definition onChangeMensaje (v : jsstring) (s : State) : Run :=
  finish (setOriginalMensaje v (setMensaje v s)) [].

(** [onClick] of "Simular Ataque". *)
Definition simularAtaque (s : State) : Run :=
  finish (setMensaje (mensaje s ++ attack_suffix) s)
    [js "Mensaje interceptado por un atacante."].

(** [onClick] of "Copiar de Emisor". *)
Definition copiarDeEmisor (s : State) : Run :=
  if is_empty (pubPemA s)
  then finish s [js "Primero genera claves en el emisor."]
  else finish (setPubPemB (pubPemA s) s)
         [js "Clave pública copiada al receptor."].

(** [onChange] of the key box and of the signature box of the receiver. *)
Definition onChangePubPemB (v : jsstring) (s : State) : Run :=
  finish (setPubPemB v s) [].

Definition onChangeFirma (v : jsstring) (s : State) : Run :=
  finish (setFirmaB64 v s) [].

(** [n] clicks on "Simular Ataque". *)
Fixpoint attacks (n : nat) (s : State) : State :=
  match n with
  | O => s
  | S n' => attacks n' (st (simularAtaque s))
  end.

(** A provider that does what a signature scheme promises, on the keys it
    generates: they can be exported, the exported public key can be
    imported, the private key signs, and the imported public key accepts
    those signatures. *)
Record Lawful : Prop := {
  exports_private :
    forall seed kp, subtle_generateKey seed = Ok kp ->
    exists pkcs8, subtle_exportKey Pkcs8 (privateKey kp) = Ok pkcs8
                  /\ pkcs8 <> [];
  exports_public :
    forall seed kp, subtle_generateKey seed = Ok kp ->
    exists spki, subtle_exportKey Spki (publicKey kp) = Ok spki
                 /\ spki <> [];
  imports_exported :
    forall seed kp spki, subtle_generateKey seed = Ok kp ->
    subtle_exportKey Spki (publicKey kp) = Ok spki ->
    exists key, subtle_importKey Spki spki = Ok key;
  signs :
    forall seed kp data, subtle_generateKey seed = Ok kp ->
    exists sig, subtle_sign (privateKey kp) data = Ok sig /\ sig <> [];
  verifies :
    forall seed kp spki key data sig, subtle_generateKey seed = Ok kp ->
    subtle_exportKey Spki (publicKey kp) = Ok spki ->
    subtle_importKey Spki spki = Ok key ->
    subtle_sign (privateKey kp) data = Ok sig ->
    subtle_verify key sig data = Ok true
}.

End Workflow.

Arguments Lawful host : clear implicits.

(** ** A small provider

    Keys are numbered; a signature is the number of the key followed by the
    data.  It serves to run the workflow on concrete states. *)
Module Toy.

Inductive key : Type :=
| PrivateKey (id : N)
| PublicKey (id : N).

Fixpoint bytes_eqb (a b : bytes) : bool :=
  match a, b with
  | [], [] => true
  | x :: a', y :: b' => Byte.eqb x y && bytes_eqb a' b'
  | _, _ => false
  end.

Definition refused : JsError := {| message := js "operation refused" |}.

Definition generateKey (seed : N) : Result (CryptoKeyPair key) :=
  Ok {| privateKey := PrivateKey seed; publicKey := PublicKey seed |}.

Definition exportKey (f : KeyFormat) (k : key) : Result bytes :=
  match f, k with
  | Spki, PublicKey n => Ok [x30; u8 n]
  | Pkcs8, PrivateKey n => Ok [x30; x82; u8 n]
  | _, _ => Throw refused
  end.

Definition importKey (f : KeyFormat) (b : bytes) : Result key :=
  match f, b with
  | Spki, [x30; n] => Ok (PublicKey (Byte.to_N n))
  | _, _ => Throw refused
  end.

Definition sign (k : key) (data : bytes) : Result bytes :=
  match k with
  | PrivateKey n => Ok (u8 n :: data)
  | PublicKey _ => Throw refused
  end.

Definition verify (k : key) (signature data : bytes) : Result bool :=
  match k with
  | PublicKey n => Ok (bytes_eqb signature (u8 n :: data))
  | PrivateKey _ => Throw refused
  end.

Definition host : Host :=
  {| CryptoKey := key;
     Seed := N;
     subtle_generateKey := generateKey;
     subtle_exportKey := exportKey;
     subtle_importKey := importKey;
     subtle_sign := sign;
     subtle_verify := verify;
     InvalidCharacterError := {| message := js "invalid character" |};
     NullTypeError := {| message := js "null has no properties" |} |}.

End Toy.

(** ** A session on the small provider *)

Definition demo_start : @State Toy.host :=
  st (onChangeMensaje (js "hello") initial).

Definition demo_keys : @State Toy.host :=
  st (handleGenerarClaves (host := Toy.host) 7 demo_start).

Definition demo_signed : @State Toy.host := st (handleFirmar demo_keys).

Definition demo_received : @State Toy.host :=
  st (handleImportarPubEnReceptor (st (copiarDeEmisor demo_signed))).

(** The receiver's signature box overwritten with text that is no Base64. *)
Definition demo_garbled : @State Toy.host :=
  st (onChangeFirma (js "!!!") demo_received).

(** A sender whose key handle cannot sign. *)
Definition demo_unsignable : @State Toy.host :=
  setFirmaB64 (js "QUJD")
    (setOriginalMensaje (js "old")
       (setMensaje (js "new")
          (setPrivKeyA (host := Toy.host) (Some (Toy.PublicKey 1)) initial))).

(** ** Notions the statements below use *)

(** The characters of Base64 text: the alphabet and the padding. *)
Definition is_b64_text (c : N) : bool := is_b64 c || (c =? pad).

(** The encoding without its padding. *)
Fixpoint base64_encode_bare (l : list N) : jsstring :=
  match l with
  | [] => []
  | [a] => [b64_char (a / 4); b64_char ((a mod 4) * 16)]
  | [a; b] =>
      [b64_char (a / 4); b64_char ((a mod 4) * 16 + b / 16);
       b64_char ((b mod 16) * 4)]
  | a :: b :: c :: rest =>
      b64_char (a / 4) :: b64_char ((a mod 4) * 16 + b / 16)
        :: b64_char ((b mod 16) * 4 + c / 64) :: b64_char (c mod 64)
        :: base64_encode_bare rest
  end.

(** Characters a byte can hold. *)
Definition bounded (l : list N) : Prop := Forall (fun c => c <= 255) l.

(** What [\s] does not match, and what [.] matches. *)
Definition not_space (c : N) : bool := negb (is_space c).

Definition not_terminator (c : N) : Prop := is_line_terminator c = false.

(** Text with neither white space nor dashes: Base64 text is of that
    kind. *)
Definition plain (x : jsstring) : Prop :=
  Forall (fun c => is_space c = false /\ c <> 45) x.

(** ** The rest of the component: markup, events, sessions *)

(** [hay.includes(needle)] *)
Fixpoint includes (needle hay : jsstring) : bool :=
  match strip_prefix needle hay with
  | Some _ => true
  | None =>
      match hay with
      | [] => false
      | _ :: hay' => includes needle hay'
      end
  end.

(** The colours of the result panel: the [className] of the markup takes
    the green classes when the text includes the check mark, else the red
    ones when it includes the cross, else the grey ones. *)
Inductive Panel : Type := Green | Red | Grey.

Definition panel (verificacion : jsstring) : Panel :=
  if includes (js "✔") verificacion then Green
  else if includes (js "❌") verificacion then Red
  else Grey.

(** [verificacion || 'La verificación aparecerá aquí...'] *)
Definition panel_text (verificacion : jsstring) : jsstring :=
  if is_empty verificacion then js "La verificación aparecerá aquí..."
  else verificacion.

(** Lines of exactly [n] code units each, but for the last one, which has
    from 1 to [n]. *)
Fixpoint hard_wrapped (n : nat) (lines : list jsstring) : Prop :=
  match lines with
  | [] => True
  | [a] => (1 <= length a <= n)%nat
  | a :: r => length a = n /\ hard_wrapped n r
  end.

(** [!key] on a key handle or [null]. *)
Definition is_null {A : Type} (o : option A) : bool :=
  match o with
  | None => true
  | Some _ => false
  end.

Section Component.

Context {host : Host}.

(** The [disabled] attributes of the four buttons with a guard. *)
Definition firmar_disabled (s : State) : bool :=
  is_null (privKeyA s) || is_empty (mensaje s).

Definition copiar_disabled (s : State) : bool := is_empty (pubPemA s).

Definition importar_disabled (s : State) : bool := is_empty (pubPemB s).

Definition verificar_disabled (s : State) : bool :=
  is_null (pubKeyB s) || is_empty (firmaB64 s).

(** [onChange] of the two key boxes of the sender. *)
Definition onChangePubPemA (v : jsstring) (s : State) : Run :=
  finish (setPubPemA v s) [].

Definition onChangePrivPemA (v : jsstring) (s : State) : Run :=
  finish (setPrivPemA v s) [].

(** What the user can do to the component; the signature box of the sender
    is read-only.  [dispatch] runs the handler of an event whether or not
    its button is disabled. *)
Inductive Event : Type :=
| GenerarClaves (seed : Seed)
| Firmar
| SimularAtaque
| CopiarDeEmisor
| ImportarPem
| Verificar
| ChangePubPemA (v : jsstring)
| ChangePrivPemA (v : jsstring)
| ChangeMensaje (v : jsstring)
| ChangePubPemB (v : jsstring)
| ChangeFirma (v : jsstring).

Definition dispatch (e : Event) (s : State) : Run :=
  match e with
  | GenerarClaves seed => handleGenerarClaves seed s
  | Firmar => handleFirmar s
  | SimularAtaque => simularAtaque s
  | CopiarDeEmisor => copiarDeEmisor s
  | ImportarPem => handleImportarPubEnReceptor s
  | Verificar => handleVerificar s
  | ChangePubPemA v => onChangePubPemA v s
  | ChangePrivPemA v => onChangePrivPemA v s
  | ChangeMensaje v => onChangeMensaje v s
  | ChangePubPemB v => onChangePubPemB v s
  | ChangeFirma v => onChangeFirma v s
  end.

(** The state after a sequence of events, one after the other. *)
Fixpoint session (events : list Event) (s : State) : State :=
  match events with
  | [] => s
  | e :: rest => session rest (st (dispatch e s))
  end.

End Component.

(** ** A provider with sealed keys

    The small provider, except that its keys cannot be exported and that
    its generator fails on the seed 0. *)
Module Sealed.

Definition generateKey (seed : N) : Result (CryptoKeyPair Toy.key) :=
  if seed =? 0 then Throw Toy.refused else Toy.generateKey seed.

Definition host : Host :=
  {| CryptoKey := Toy.key;
     Seed := N;
     subtle_generateKey := generateKey;
     subtle_exportKey := fun _ _ => Throw Toy.refused;
     subtle_importKey := Toy.importKey;
     subtle_sign := Toy.sign;
     subtle_verify := Toy.verify;
     InvalidCharacterError := {| message := js "invalid character" |};
     NullTypeError := {| message := js "null has no properties" |} |}.

End Sealed.

(** The session of the small provider after the attack, verified. *)
Definition demo_attacked : @State Toy.host :=
  session [SimularAtaque; Verificar] demo_received.

(** The session of the small provider with the message edited after the
    signing, before the key is handed over. *)
Definition demo_edited : @State Toy.host :=
  session [ChangeMensaje (js "bye"); CopiarDeEmisor; ImportarPem] demo_signed.

(** * Properties of the codec *)

(** ** Strings *)

Lemma str_eqb_eq (a b : jsstring) : str_eqb a b = true <-> a = b.
Proof.
  revert b; induction a as [|x a IH]; intros [|y b]; simpl;
    try (split; [discriminate | discriminate]); try tauto.
  rewrite andb_true_iff, N.eqb_eq, IH.
  split; [intros [-> ->]; reflexivity | intros [= -> ->]; auto].
Qed.

Lemma str_eqb_refl (a : jsstring) : str_eqb a a = true.
Proof. apply str_eqb_eq; reflexivity. Qed.

Lemma str_eqb_neq (a b : jsstring) : str_eqb a b = false <-> a <> b.
Proof.
  rewrite <- str_eqb_eq. destruct (str_eqb a b); split; congruence.
Qed.

Lemma is_empty_false (s : jsstring) : s <> [] -> is_empty s = false.
Proof. destruct s; [congruence | reflexivity]. Qed.

(** Lists taken three elements at a time. *)
Lemma list_ind3 {A : Type} (P : list A -> Prop) :
  P [] -> (forall a, P [a]) -> (forall a b, P [a; b]) ->
  (forall a b c l, P l -> P (a :: b :: c :: l)) ->
  forall l, P l.
Proof.
  intros H0 H1 H2 H3.
  fix IH 1.
  intros [|a [|b [|c l]]];
    [exact H0 | apply H1 | apply H2 | apply H3, IH].
Qed.

(** ** Bytes *)

Lemma u8_to_N (b : byte) : u8 (Byte.to_N b) = b.
Proof.
  unfold u8.
  rewrite N.mod_small by (pose proof (Byte.to_N_bounded b); lia).
  rewrite Byte.of_to_N. reflexivity.
Qed.

Lemma fromCharCode_bounded (buffer : bytes) :
  forallb (fun c => c <=? 255) (fromCharCode buffer) = true.
Proof.
  unfold fromCharCode. apply forallb_forall. intros c Hc.
  apply in_map_iff in Hc as (b & <- & _).
  apply N.leb_le, Byte.to_N_bounded.
Qed.

Lemma map_u8_fromCharCode (buffer : bytes) :
  map u8 (fromCharCode buffer) = buffer.
Proof.
  unfold fromCharCode. rewrite map_map.
  induction buffer as [|b l IH]; simpl; [|rewrite u8_to_N, IH]; reflexivity.
Qed.

(** [btoa] never throws on the characters of a buffer. *)
Lemma bufToBase64_total (buffer : bytes) :
  bufToBase64 buffer = Some (base64_encode (fromCharCode buffer)).
Proof.
  unfold bufToBase64, btoa. rewrite fromCharCode_bounded. reflexivity.
Qed.

(** ** The alphabet *)

Ltac cmp1 :=
  match goal with
  | |- context [?a <? ?b] => destruct (N.ltb_spec a b)
  | |- context [?a <=? ?b] => destruct (N.leb_spec a b)
  | |- context [?a =? ?b] => destruct (N.eqb_spec a b)
  end; cbn [andb orb negb]; try discriminate; try lia.

Ltac cmp := repeat cmp1.

Lemma b64_val_char (v : N) : v < 64 -> b64_val (b64_char v) = Some v.
Proof.
  intros Hv. destruct v as [|p]; [reflexivity|].
  do 6 (try destruct p as [p|p|]); try reflexivity; lia.
Qed.

Lemma val_char (v : N) : v < 64 -> val (b64_char v) = v.
Proof. intros Hv. unfold val. rewrite b64_val_char; auto. Qed.

Lemma is_b64_char (v : N) : v < 64 -> is_b64 (b64_char v) = true.
Proof. intros Hv. unfold is_b64. rewrite b64_val_char; auto. Qed.

Lemma is_b64_not_pad (c : N) : is_b64 c = true -> (c =? pad) = false.
Proof.
  unfold is_b64, b64_val, pad. intros H. apply N.eqb_neq. intros ->.
  discriminate H.
Qed.

Lemma is_b64_text_range (c : N) : is_b64_text c = true -> 43 <= c <= 122.
Proof.
  unfold is_b64_text, is_b64, b64_val, pad. cmp.
Qed.

Lemma is_b64_is_text (c : N) : is_b64 c = true -> is_b64_text c = true.
Proof. unfold is_b64_text. intros ->. reflexivity. Qed.

Lemma is_b64_text_not_ascii_ws (c : N) :
  is_b64_text c = true -> is_ascii_ws c = false.
Proof.
  intros H. apply is_b64_text_range in H. unfold is_ascii_ws. cmp.
Qed.

Lemma is_b64_text_not_space (c : N) :
  is_b64_text c = true -> is_space c = false.
Proof.
  intros H. apply is_b64_text_range in H. unfold is_space. cmp.
Qed.

Lemma is_b64_text_not_dash (c : N) : is_b64_text c = true -> c <> 45.
Proof.
  unfold is_b64_text, is_b64, b64_val, pad. intros H ->. discriminate H.
Qed.

Lemma is_space_line_terminator (c : N) :
  is_line_terminator c = true -> is_space c = true.
Proof.
  unfold is_line_terminator, is_space. cmp.
Qed.

(** ** Encoding and decoding *)

Lemma bounded_forallb (l : list N) :
  forallb (fun c => c <=? 255) l = true -> bounded l.
Proof.
  intros H. apply Forall_forall. intros c Hc.
  apply N.leb_le. revert c Hc. apply forallb_forall. exact H.
Qed.

(** Quotients and remainders by constants are left to [lia]. *)
Ltac Zify.zify_post_hook ::= Z.to_euclidean_division_equations.

Lemma sextet_bounds (a b c : N) :
  a <= 255 -> b <= 255 -> c <= 255 ->
  a / 4 < 64 /\ (a mod 4) * 16 < 64 /\ (a mod 4) * 16 + b / 16 < 64
  /\ (b mod 16) * 4 < 64 /\ (b mod 16) * 4 + c / 64 < 64 /\ c mod 64 < 64.
Proof.
  intros Ha Hb Hc. repeat apply conj; lia.
Qed.

Lemma base64_encode_length (l : list N) :
  N.of_nat (length (base64_encode l)) mod 4 = 0.
Proof.
  induction l as [| a | a b | a b c l IH] using list_ind3;
    try reflexivity.
  cbn [base64_encode length].
  replace (N.of_nat (S (S (S (S (length (base64_encode l)))))))
    with (N.of_nat (length (base64_encode l)) + 1 * 4) by lia.
  rewrite N.Div0.mod_add. exact IH.
Qed.

Lemma base64_encode_bare_b64 (l : list N) :
  bounded l -> forallb is_b64 (base64_encode_bare l) = true.
Proof.
  induction l as [| a | a b | a b c l IH] using list_ind3; intros Hl.
  - reflexivity.
  - inversion_clear Hl as [|? ? Ha _].
    destruct (sextet_bounds a 0 0) as (? & ? & _); try lia.
    cbn [base64_encode_bare forallb].
    rewrite !is_b64_char by assumption. reflexivity.
  - inversion_clear Hl as [|? ? Ha Hl']. inversion_clear Hl' as [|? ? Hb _].
    destruct (sextet_bounds a b 0) as (? & ? & ? & ? & _); try lia.
    cbn [base64_encode_bare forallb].
    rewrite !is_b64_char by assumption. reflexivity.
  - inversion_clear Hl as [|? ? Ha Hl']. inversion_clear Hl' as [|? ? Hb Hl].
    inversion_clear Hl as [|? ? Hc Hl'].
    destruct (sextet_bounds a b c) as (? & ? & ? & ? & ? & ?); try lia.
    cbn [base64_encode_bare forallb].
    rewrite !is_b64_char by assumption. rewrite IH by assumption.
    reflexivity.
Qed.

(** The text of an encoding: alphabet and padding only. *)
Lemma base64_encode_text (l : list N) :
  bounded l -> Forall (fun c => is_b64_text c = true) (base64_encode l).
Proof.
  unfold is_b64_text.
  induction l as [| a | a b | a b c l IH] using list_ind3; intros Hl.
  - constructor.
  - inversion_clear Hl as [|? ? Ha _].
    destruct (sextet_bounds a 0 0) as (? & ? & _); try lia.
    cbn [base64_encode].
    repeat constructor; rewrite ?is_b64_char by assumption; reflexivity.
  - inversion_clear Hl as [|? ? Ha Hl']. inversion_clear Hl' as [|? ? Hb _].
    destruct (sextet_bounds a b 0) as (? & ? & ? & ? & _); try lia.
    cbn [base64_encode].
    repeat constructor; rewrite ?is_b64_char by assumption; reflexivity.
  - inversion_clear Hl as [|? ? Ha Hl']. inversion_clear Hl' as [|? ? Hb Hl].
    inversion_clear Hl as [|? ? Hc Hl'].
    destruct (sextet_bounds a b c) as (? & ? & ? & ? & ? & ?); try lia.
    cbn [base64_encode].
    repeat (constructor; [rewrite is_b64_char by assumption; reflexivity|]).
    auto.
Qed.

Lemma base64_encode_nonempty (l : list N) : l <> [] -> base64_encode l <> [].
Proof.
  destruct l as [|a [|b [|c l]]]; simpl; congruence.
Qed.

Lemma strip_padding_cons (x y z : N) (l : jsstring) :
  strip_padding (x :: y :: z :: l) = x :: strip_padding (y :: z :: l).
Proof. reflexivity. Qed.

(** Removing the padding of an encoding leaves the bare encoding. *)
Lemma strip_padding_encode (l : list N) :
  bounded l -> strip_padding (base64_encode l) = base64_encode_bare l.
Proof.
  induction l as [| a | a b | a b c l IH] using list_ind3; intros Hl.
  - reflexivity.
  - reflexivity.
  - inversion_clear Hl as [|? ? Ha Hl']. inversion_clear Hl' as [|? ? Hb _].
    destruct (sextet_bounds a b 0) as (? & ? & ? & ? & _); try lia.
    cbn [base64_encode base64_encode_bare]. rewrite !strip_padding_cons.
    cbn [strip_padding]. rewrite N.eqb_refl.
    rewrite is_b64_not_pad by (apply is_b64_char; assumption).
    reflexivity.
  - inversion_clear Hl as [|? ? Ha Hl']. inversion_clear Hl' as [|? ? Hb Hl].
    inversion_clear Hl as [|? ? Hc Hl'].
    destruct (sextet_bounds a b c) as (? & ? & ? & ? & ? & ?); try lia.
    specialize (IH Hl').
    destruct l as [|x [|y [|z l]]].
    + cbn [base64_encode base64_encode_bare strip_padding].
      rewrite !is_b64_not_pad by (apply is_b64_char; assumption).
      reflexivity.
    + cbn [base64_encode base64_encode_bare] in *.
      do 4 rewrite strip_padding_cons. rewrite IH. reflexivity.
    + cbn [base64_encode base64_encode_bare] in *.
      do 4 rewrite strip_padding_cons. rewrite IH. reflexivity.
    + cbn [base64_encode base64_encode_bare] in *.
      do 4 rewrite strip_padding_cons. rewrite IH. reflexivity.
Qed.

Lemma base64_encode_bare_length (l : list N) :
  N.of_nat (length (base64_encode_bare l)) mod 4 <> 1.
Proof.
  induction l as [| a | a b | a b c l IH] using list_ind3;
    try (vm_compute; discriminate).
  cbn [base64_encode_bare length].
  replace (N.of_nat (S (S (S (S (length (base64_encode_bare l)))))))
    with (N.of_nat (length (base64_encode_bare l)) + 1 * 4) by lia.
  rewrite N.Div0.mod_add. exact IH.
Qed.

Lemma decode_group3 (a b c : N) :
  a <= 255 -> b <= 255 -> c <= 255 ->
  let n := (a / 4) * 262144 + ((a mod 4) * 16 + b / 16) * 4096
           + ((b mod 16) * 4 + c / 64) * 64 + c mod 64 in
  n / 65536 = a /\ (n / 256) mod 256 = b /\ n mod 256 = c.
Proof.
  intros Ha Hb Hc n.
  assert (Hn : n = a * 65536 + b * 256 + c) by (subst n; lia).
  rewrite Hn. repeat apply conj; lia.
Qed.

Lemma decode_group2 (a b : N) :
  a <= 255 -> b <= 255 ->
  let n := (a / 4) * 4096 + ((a mod 4) * 16 + b / 16) * 64 + (b mod 16) * 4 in
  n / 1024 = a /\ (n / 4) mod 256 = b.
Proof.
  intros Ha Hb n.
  assert (Hn : n = a * 1024 + b * 4) by (subst n; lia).
  rewrite Hn. split; lia.
Qed.

Lemma decode_group1 (a : N) :
  a <= 255 -> ((a / 4) * 64 + (a mod 4) * 16) / 16 = a.
Proof. intros Ha. lia. Qed.

Lemma base64_decode_encode_bare (l : list N) :
  bounded l -> base64_decode (base64_encode_bare l) = l.
Proof.
  induction l as [| a | a b | a b c l IH] using list_ind3; intros Hl.
  - reflexivity.
  - inversion_clear Hl as [|? ? Ha _].
    destruct (sextet_bounds a 0 0) as (? & ? & _); try lia.
    cbn [base64_encode_bare base64_decode].
    rewrite !val_char by assumption.
    rewrite decode_group1 by assumption. reflexivity.
  - inversion_clear Hl as [|? ? Ha Hl']. inversion_clear Hl' as [|? ? Hb _].
    destruct (sextet_bounds a b 0) as (? & ? & ? & ? & _); try lia.
    cbn [base64_encode_bare base64_decode].
    rewrite !val_char by assumption.
    destruct (decode_group2 a b Ha Hb) as [-> ->]. reflexivity.
  - inversion_clear Hl as [|? ? Ha Hl']. inversion_clear Hl' as [|? ? Hb Hl].
    inversion_clear Hl as [|? ? Hc Hl'].
    destruct (sextet_bounds a b c) as (? & ? & ? & ? & ? & ?); try lia.
    cbn [base64_encode_bare base64_decode].
    rewrite !val_char by assumption.
    destruct (decode_group3 a b c Ha Hb Hc) as (-> & -> & ->).
    rewrite IH by assumption. reflexivity.
Qed.

Lemma strip_ascii_ws_id (s : jsstring) :
  Forall (fun c => is_ascii_ws c = false) s -> strip_ascii_ws s = s.
Proof.
  unfold strip_ascii_ws. induction 1 as [|c s Hc _ IH]; simpl.
  - reflexivity.
  - rewrite Hc. simpl. rewrite IH. reflexivity.
Qed.

(** [atob] depends on its argument up to ASCII whitespace only. *)
Lemma atob_strip (s : jsstring) : atob s = atob (strip_ascii_ws s).
Proof.
  unfold atob, atob_payload, strip_ascii_ws.
  assert (E : forall l,
    filter (fun c => negb (is_ascii_ws c))
      (filter (fun c => negb (is_ascii_ws c)) l)
    = filter (fun c => negb (is_ascii_ws c)) l).
  { induction l as [|c l IH]; simpl; [reflexivity|].
    destruct (negb (is_ascii_ws c)) eqn:E; simpl; rewrite ?E, IH;
      reflexivity. }
  rewrite E. reflexivity.
Qed.

(** Decoding an encoding gives the characters back. *)
Lemma atob_encode (l : list N) :
  bounded l -> atob (base64_encode l) = Some l.
Proof.
  intros Hl. unfold atob, atob_payload.
  rewrite strip_ascii_ws_id.
  2:{ eapply Forall_impl; [|apply base64_encode_text; exact Hl].
      intros c. apply is_b64_text_not_ascii_ws. }
  rewrite base64_encode_length. cbn [N.eqb].
  rewrite strip_padding_encode by assumption.
  destruct (N.eqb_spec (N.of_nat (length (base64_encode_bare l)) mod 4) 1)
    as [E|_].
  - exfalso. exact (base64_encode_bare_length l E).
  - rewrite base64_encode_bare_b64 by assumption. cbn [negb].
    rewrite base64_decode_encode_bare by assumption. reflexivity.
Qed.

(** [base64ToBuf] undoes [bufToBase64], whatever ASCII whitespace has been
    put into the text. *)
Lemma base64ToBuf_bufToBase64 (buffer : bytes) (text s : jsstring) :
  bufToBase64 buffer = Some text ->
  strip_ascii_ws s = text ->
  base64ToBuf s = Some buffer.
Proof.
  rewrite bufToBase64_total. intros [= <-] Hs.
  unfold base64ToBuf. rewrite atob_strip, Hs.
  rewrite atob_encode.
  - rewrite map_u8_fromCharCode. reflexivity.
  - apply bounded_forallb, fromCharCode_bounded.
Qed.

Lemma forallb_false_ex {A : Type} (f : A -> bool) (l : list A) :
  forallb f l = false <-> exists c, In c l /\ f c = false.
Proof.
  induction l as [|x l IH]; simpl.
  - split; [discriminate | intros (c & [] & _)].
  - rewrite andb_false_iff, IH. split.
    + intros [Hx | (c & Hc & Hf)]; [exists x | exists c]; auto.
    + intros (c & [-> | Hc] & Hf); [left | right; exists c]; auto.
Qed.

(** [atob] throws exactly on a payload of length 1 modulo 4 or with a
    character outside the alphabet. *)
Lemma atob_fails_iff (s : jsstring) :
  atob s = None <->
  N.of_nat (length (atob_payload s)) mod 4 = 1
  \/ exists c, In c (atob_payload s) /\ is_b64 c = false.
Proof.
  unfold atob. rewrite <- forallb_false_ex.
  destruct (N.eqb_spec (N.of_nat (length (atob_payload s)) mod 4) 1)
    as [E|E].
  - split; auto.
  - destruct (forallb is_b64 (atob_payload s)); cbn [negb].
    + split; [discriminate | intros [H|H]; [contradiction | discriminate]].
    + split; auto.
Qed.

(** ** Scans *)

Lemma scan_skip (re : jsstring -> option nat) (a b : jsstring) :
  scan re (length a) (a ++ b) = scan re O b.
Proof. induction a as [|c a IH]; simpl; auto. Qed.

Lemma count_while_firstn (f : N -> bool) (n : nat) (s : jsstring) :
  Forall (fun c => f c = true) (firstn (count_while f n s) s).
Proof.
  revert s; induction n as [|n IH]; intros [|c s]; simpl;
    try constructor.
  destruct (f c) eqn:E; simpl; constructor; auto.
Qed.

Lemma filter_skipn_spaces (m : nat) (s : jsstring) :
  Forall (fun c => is_space c = true) (firstn m s) ->
  filter not_space (skipn m s) = filter not_space s.
Proof.
  revert s; induction m as [|m IH]; intros [|c s] H; simpl; auto.
  simpl in H. inversion_clear H as [|? ? Hc Hs].
  unfold not_space at 2. rewrite Hc. simpl. auto.
Qed.

Lemma re_spaces_cons (c : N) (s : jsstring) :
  re_spaces (c :: s)
  = if is_space c then Some (S (count_while is_space (length s) s))
    else None.
Proof.
  unfold re_spaces. cbn [length count_while].
  destruct (is_space c); reflexivity.
Qed.

(** Deleting the runs of white space deletes the white space. *)
Lemma kept_scan_spaces (k : nat) (s : jsstring) :
  Forall (fun c => is_space c = true) (firstn k s) ->
  kept (scan re_spaces k s) = filter not_space (skipn k s).
Proof.
  revert k; induction s as [|c s IH]; intros k Hk.
  - destruct k; reflexivity.
  - destruct k as [|k].
    + cbn [scan skipn filter]. rewrite re_spaces_cons.
      unfold not_space at 1.
      destruct (is_space c) eqn:E; cbn [negb kept].
      * rewrite IH by apply count_while_firstn.
        apply filter_skipn_spaces, count_while_firstn.
      * rewrite (IH O) by constructor. reflexivity.
    + cbn [scan skipn]. apply IH.
      simpl in Hk. inversion Hk; assumption.
Qed.

Lemma replace_spaces (s : jsstring) :
  replace_all re_spaces s = filter not_space s.
Proof. apply (kept_scan_spaces O). constructor. Qed.

Lemma pemToBase64_filter (pem : jsstring) :
  pemToBase64 pem = filter not_space (replace_all re_delimiter pem).
Proof. apply replace_spaces. Qed.

Lemma filter_not_space_id (s : jsstring) :
  Forall (fun c => is_space c = false) s -> filter not_space s = s.
Proof.
  induction 1 as [|c s Hc _ IH]; simpl; [reflexivity|].
  unfold not_space at 1. rewrite Hc. simpl. rewrite IH. reflexivity.
Qed.

(** ** The delimiter expression *)

Lemma strip_prefix_self (p x : jsstring) : strip_prefix p (p ++ x) = Some x.
Proof.
  induction p as [|a p IH]; simpl; [reflexivity|].
  rewrite N.eqb_refl. exact IH.
Qed.

Lemma strip_prefix_app (p s r x : jsstring) :
  strip_prefix p s = Some r -> strip_prefix p (s ++ x) = Some (r ++ x).
Proof.
  revert s; induction p as [|a p IH]; intros s; simpl.
  - intros [= ->]; reflexivity.
  - destruct s as [|b s]; [discriminate|]. simpl.
    destruct (a =? b); [apply IH | discriminate].
Qed.

Lemma strip_prefix_length (p s r : jsstring) :
  strip_prefix p s = Some r -> length s = (length p + length r)%nat.
Proof.
  revert s; induction p as [|a p IH]; intros s; simpl.
  - intros [= ->]; reflexivity.
  - destruct s as [|b s]; [discriminate|].
    destruct (a =? b); [|discriminate].
    intros H. apply IH in H. simpl. lia.
Qed.

Lemma strip_prefix_none_app (p s : jsstring) (t : N) (b : jsstring) :
  Forall (fun a => (a =? t) = false) p ->
  strip_prefix p s = None -> strip_prefix p (s ++ t :: b) = None.
Proof.
  intros Hp. revert s; induction Hp as [|a p Ha _ IH]; intros s; simpl.
  - discriminate.
  - destruct s as [|c s]; simpl.
    + rewrite Ha. reflexivity.
    + destruct (a =? c); [apply IH | reflexivity].
Qed.

Lemma dots_app_terminator (r : jsstring) (t : N) (b : jsstring) :
  is_line_terminator t = true -> dots (r ++ t :: b) = dots r.
Proof.
  intros Ht. induction r as [|c r IH]; simpl.
  - rewrite Ht. reflexivity.
  - destruct (is_line_terminator c); [reflexivity | f_equal; exact IH].
Qed.

Lemma dots_id (l : jsstring) : Forall not_terminator l -> dots l = l.
Proof.
  induction 1 as [|c l Hc _ IH]; simpl; [reflexivity|].
  rewrite Hc, IH. reflexivity.
Qed.

Lemma dots_length (l : jsstring) : (length (dots l) <= length l)%nat.
Proof.
  induction l as [|c l IH]; simpl; [lia|].
  destruct (is_line_terminator c); simpl; lia.
Qed.

Lemma last_index_bound (p l : jsstring) (j : nat) :
  last_index p l = Some j -> (j + length p <= length l)%nat.
Proof.
  revert j; induction l as [|c l IH]; intros j; cbn [last_index].
  - discriminate.
  - destruct (last_index p l) as [j'|].
    + intros [= <-]. specialize (IH _ eq_refl). simpl. lia.
    + destruct (strip_prefix p (c :: l)) eqn:E; [|discriminate].
      intros [= <-]. apply strip_prefix_length in E. lia.
Qed.

Lemma last_index_closing (mid : jsstring) :
  last_index dashes (mid ++ dashes) = Some (length mid).
Proof.
  induction mid as [|c mid IH].
  - reflexivity.
  - cbn [app last_index length]. rewrite IH. reflexivity.
Qed.

Lemma dashes_not_terminator : Forall not_terminator dashes.
Proof. repeat constructor. Qed.

Lemma terminator_not_dash (t : N) :
  is_line_terminator t = true -> Forall (fun a => (a =? t) = false) dashes.
Proof.
  intros Ht.
  assert (E : (45 =? t) = false).
  { apply N.eqb_neq. intros <-. discriminate Ht. }
  repeat constructor; exact E.
Qed.

(** A line that opens and closes with five dashes is matched whole. *)
Lemma re_delimiter_whole (mid : jsstring) :
  Forall not_terminator mid ->
  re_delimiter (dashes ++ mid ++ dashes) = Some (5 + length mid + 5)%nat.
Proof.
  intros Hmid. unfold re_delimiter.
  rewrite strip_prefix_self.
  rewrite dots_id by (apply Forall_app; split;
                      [exact Hmid | exact dashes_not_terminator]).
  rewrite last_index_closing. reflexivity.
Qed.

Lemma re_delimiter_no_dash (c : N) (s : jsstring) :
  c <> 45 -> re_delimiter (c :: s) = None.
Proof.
  intros Hc. unfold re_delimiter.
  change dashes with [45; 45; 45; 45; 45]. cbn [strip_prefix].
  destruct (N.eqb_spec 45 c) as [E|_]; [congruence | reflexivity].
Qed.

(** A match does not run over the end of the text ... *)
Lemma re_delimiter_bound (s : jsstring) (n : nat) :
  re_delimiter s = Some n -> (n <= length s)%nat.
Proof.
  unfold re_delimiter.
  destruct (strip_prefix dashes s) as [rest|] eqn:E; [|discriminate].
  destruct (last_index dashes (dots rest)) as [j|] eqn:F; [|discriminate].
  intros [= <-].
  apply strip_prefix_length in E. apply last_index_bound in F.
  pose proof (dots_length rest).
  change (length dashes) with 5%nat in *. lia.
Qed.

(** ... nor over the end of the line. *)
Lemma re_delimiter_local (s : jsstring) (t : N) (b : jsstring) :
  is_line_terminator t = true ->
  re_delimiter (s ++ t :: b) = re_delimiter s.
Proof.
  intros Ht. unfold re_delimiter.
  destruct (strip_prefix dashes s) as [rest|] eqn:E.
  - rewrite (strip_prefix_app _ _ _ _ E), dots_app_terminator by exact Ht.
    reflexivity.
  - rewrite strip_prefix_none_app; auto using terminator_not_dash.
Qed.

Lemma terminator_is_no_dash (t : N) : is_line_terminator t = true -> t <> 45.
Proof. intros Ht ->. discriminate Ht. Qed.

Lemma kept_scan_delimiter_line (k : nat) (a : jsstring) (t : N)
    (b : jsstring) :
  is_line_terminator t = true -> (k <= length a)%nat ->
  kept (scan re_delimiter k (a ++ t :: b))
  = kept (scan re_delimiter k a) ++ t :: kept (scan re_delimiter O b).
Proof.
  intros Ht. revert k. induction a as [|c a IH]; intros k Hk.
  - assert (k = O) by (simpl in Hk; lia). subst k.
    cbn [app scan].
    rewrite re_delimiter_no_dash by (apply terminator_is_no_dash, Ht).
    reflexivity.
  - destruct k as [|k].
    + change ((c :: a) ++ t :: b) with (c :: (a ++ t :: b)).
      cbn [scan].
      change (c :: (a ++ t :: b)) with ((c :: a) ++ t :: b).
      rewrite re_delimiter_local by exact Ht.
      destruct (re_delimiter (c :: a)) as [[|m]|] eqn:E; cbn [kept].
      * rewrite IH by lia. reflexivity.
      * apply re_delimiter_bound in E. apply IH. simpl in E. lia.
      * rewrite IH by lia. reflexivity.
    + change ((c :: a) ++ t :: b) with (c :: (a ++ t :: b)).
      cbn [scan]. apply IH. simpl in Hk. lia.
Qed.

(** The delimiters are deleted line by line. *)
Lemma replace_delimiter_line (a : jsstring) (t : N) (b : jsstring) :
  is_line_terminator t = true ->
  replace_all re_delimiter (a ++ t :: b)
  = replace_all re_delimiter a ++ t :: replace_all re_delimiter b.
Proof.
  intros Ht. apply kept_scan_delimiter_line; [exact Ht | lia].
Qed.

Lemma replace_delimiter_whole (mid : jsstring) :
  Forall not_terminator mid ->
  replace_all re_delimiter (dashes ++ mid ++ dashes) = [].
Proof.
  intros Hmid. unfold replace_all.
  pose proof (re_delimiter_whole mid Hmid) as E.
  set (tl := [45; 45; 45; 45] ++ mid ++ dashes).
  change (dashes ++ mid ++ dashes) with (45 :: tl) in *.
  cbn [scan]. rewrite E. cbn [Nat.add kept].
  rewrite <- (app_nil_r tl).
  replace (S (S (S (S (length mid + 5))))) with (length tl)
    by (subst tl; rewrite !length_app; reflexivity).
  rewrite scan_skip. reflexivity.
Qed.

Lemma replace_delimiter_no_dash (s : jsstring) :
  Forall (fun c => c <> 45) s -> replace_all re_delimiter s = s.
Proof.
  unfold replace_all. induction 1 as [|c s Hc _ IH]; [reflexivity|].
  cbn [scan]. rewrite re_delimiter_no_dash by exact Hc.
  cbn [kept]. rewrite IH. reflexivity.
Qed.


(** ** The lines of the body *)

Lemma re_line64_cons (c : N) (s : jsstring) :
  is_line_terminator c = false ->
  re_line64 (c :: s)
  = Some (S (count_while (fun c => negb (is_line_terminator c)) 63 s)).
Proof.
  intros Hc. unfold re_line64. cbn [count_while]. rewrite Hc. reflexivity.
Qed.

Lemma matched_scan_line64 (k : nat) (s : jsstring) :
  Forall not_terminator s ->
  concat (matched (scan re_line64 k s)) = skipn k s.
Proof.
  intros Hs. revert k. induction Hs as [|c s Hc _ IH]; intros k.
  - destruct k; reflexivity.
  - destruct k as [|k]; cbn [scan skipn]; [|apply IH].
    rewrite re_line64_cons by exact Hc. cbn [matched concat].
    rewrite IH. cbn [firstn app]. rewrite firstn_skipn. reflexivity.
Qed.

Lemma match_all_line64 (x : jsstring) :
  x <> [] -> Forall not_terminator x ->
  exists lines, match_all re_line64 x = Some lines /\ concat lines = x.
Proof.
  intros Hne Hx. unfold match_all.
  pose proof (matched_scan_line64 O x Hx) as E. cbn [skipn] in E.
  destruct (matched (scan re_line64 O x)) as [|l ls].
  - simpl in E. congruence.
  - eauto.
Qed.

Lemma filter_join (lines : list jsstring) :
  filter not_space (join nl lines) = filter not_space (concat lines).
Proof.
  induction lines as [|a [|b r] IH].
  - reflexivity.
  - simpl. rewrite app_nil_r. reflexivity.
  - change (join nl (a :: b :: r)) with (a ++ nl ++ join nl (b :: r)).
    change (concat (a :: b :: r)) with (a ++ concat (b :: r)).
    rewrite !filter_app, IH. reflexivity.
Qed.

Lemma Forall_join (P : N -> Prop) (lines : list jsstring) :
  P 10 -> Forall P (concat lines) -> Forall P (join nl lines).
Proof.
  intros Hnl. induction lines as [|a [|b r] IH]; intros H.
  - constructor.
  - simpl in *. rewrite app_nil_r in H. exact H.
  - change (join nl (a :: b :: r)) with (a ++ nl ++ join nl (b :: r)).
    change (concat (a :: b :: r)) with (a ++ concat (b :: r)) in H.
    apply Forall_app in H as [Ha Hr].
    apply Forall_app; split; [exact Ha|].
    apply Forall_app; split; [repeat constructor; exact Hnl | auto].
Qed.

(** ** Armor and its removal *)

Lemma b64_text_plain (x : jsstring) :
  Forall (fun c => is_b64_text c = true) x -> plain x.
Proof.
  apply Forall_impl. intros c Hc. split.
  - apply is_b64_text_not_space, Hc.
  - apply is_b64_text_not_dash, Hc.
Qed.

Lemma not_space_not_terminator (c : N) :
  is_space c = false -> not_terminator c.
Proof.
  unfold not_terminator. intros Hc.
  destruct (is_line_terminator c) eqn:E; [|reflexivity].
  apply is_space_line_terminator in E. congruence.
Qed.

Lemma pem_roundtrip (x tag : jsstring) :
  x <> [] -> plain x -> Forall not_terminator tag ->
  exists pem, pemEncode x tag = Some pem /\ pemToBase64 pem = x.
Proof.
  intros Hne Hx Htag.
  assert (Hxt : Forall not_terminator x).
  { eapply Forall_impl; [|exact Hx].
    intros c [Hc _]. apply not_space_not_terminator, Hc. }
  destruct (match_all_line64 x Hne Hxt) as (lines & Hm & Hc).
  unfold pemEncode. rewrite Hm. eexists. split; [reflexivity|].
  rewrite pemToBase64_filter.
  replace (js "-----BEGIN " ++ tag ++ js "-----" ++ nl ++ join nl lines ++ nl
             ++ js "-----END " ++ tag ++ js "-----")
    with ((dashes ++ (js "BEGIN " ++ tag) ++ dashes)
            ++ 10 :: (join nl lines
                        ++ 10 :: (dashes ++ (js "END " ++ tag) ++ dashes)))
    by (rewrite <- !app_assoc; reflexivity).
  rewrite !replace_delimiter_line by reflexivity.
  rewrite !replace_delimiter_whole
    by (apply Forall_app; split; [repeat constructor | exact Htag]).
  rewrite replace_delimiter_no_dash.
  2:{ apply Forall_join; [discriminate|]. rewrite Hc.
      eapply Forall_impl; [|exact Hx]. intros c [_ H]; exact H. }
  cbn [app filter]. rewrite filter_app. cbn [filter app].
  rewrite app_nil_r, filter_join, Hc.
  apply filter_not_space_id.
  eapply Forall_impl; [|exact Hx]. intros c [H _]; exact H.
Qed.

(** * Properties of the workflow *)

Arguments js : simpl never.

Lemma base64ToBuf_exact (buffer : bytes) (text : jsstring) :
  bufToBase64 buffer = Some text -> base64ToBuf text = Some buffer.
Proof.
  intros H. apply (base64ToBuf_bufToBase64 buffer text text H).
  rewrite bufToBase64_total in H. injection H as <-.
  apply strip_ascii_ws_id.
  eapply Forall_impl; [|apply base64_encode_text, bounded_forallb,
                          fromCharCode_bounded].
  intros c. apply is_b64_text_not_ascii_ws.
Qed.

Lemma bufToBase64_text (buffer : bytes) (text : jsstring) :
  buffer <> [] -> bufToBase64 buffer = Some text ->
  text <> [] /\ Forall (fun c => is_b64_text c = true) text.
Proof.
  intros Hne. rewrite bufToBase64_total. intros [= <-]. split.
  - apply base64_encode_nonempty. destruct buffer; [congruence|discriminate].
  - apply base64_encode_text, bounded_forallb, fromCharCode_bounded.
Qed.

Lemma pemEncode_nonempty (x tag pem : jsstring) :
  pemEncode x tag = Some pem -> is_empty pem = false.
Proof.
  unfold pemEncode. destruct (match_all re_line64 x); [|discriminate].
  intros [= <-]. reflexivity.
Qed.

Lemma outcome_text_inj (o1 o2 : VerificationOutcome) :
  outcome_text o1 = outcome_text o2 -> o1 = o2.
Proof.
  destruct o1 as [ | | |r1], o2 as [ | | |r2]; intros H;
    try reflexivity; try (cbv in H; discriminate H).
  cbn [outcome_text] in H. apply app_inv_head in H. congruence.
Qed.

(** Case analysis over the handlers. *)
Ltac project :=
  cbv beta iota zeta delta
    [privKeyA pubKeyA privPemA pubPemA pubKeyB pubPemB mensaje
     originalMensaje firmaB64 verificacion
     setPrivKeyA setPubKeyA setPrivPemA setPubPemA setPubKeyB setPubPemB
     setMensaje setOriginalMensaje setFirmaB64 setVerificacion
     st alerts settled finish reject] in *.

Ltac handler_cases s :=
  destruct s;
  unfold dispatch, handleGenerarClaves, handleFirmar,
    handleImportarPubEnReceptor, handleVerificar, simularAtaque,
    copiarDeEmisor, onChangeMensaje, onChangePubPemB, onChangeFirma,
    onChangePubPemA, onChangePrivPemA;
  repeat match goal with
    | |- context [match ?x with _ => _ end] => destruct x eqn:?
    end;
  project.

Section WorkflowFacts.

Context {host : Host}.

Lemma export_pem (f : KeyFormat) (key : CryptoKey) (buf : bytes)
    (tag : jsstring) :
  subtle_exportKey f key = Ok buf -> buf <> [] ->
  Forall not_terminator tag ->
  exists pem,
    (spki <- subtle_exportKey f key ;;
     b64 <- orThrow InvalidCharacterError (bufToBase64 spki) ;;
     orThrow NullTypeError (pemEncode b64 tag)) = Ok pem
    /\ is_empty pem = false
    /\ base64ToBuf (pemToBase64 pem) = Some buf.
Proof.
  intros He Hne Htag. rewrite He. cbn [bind].
  destruct (bufToBase64 buf) as [b64|] eqn:Hb;
    [|rewrite bufToBase64_total in Hb; discriminate].
  destruct (bufToBase64_text buf b64 Hne Hb) as [Hb1 Hb2].
  destruct (pem_roundtrip b64 tag Hb1 (b64_text_plain _ Hb2) Htag)
    as (pem & Hp & Hr).
  exists pem. cbn [orThrow bind]. rewrite Hp. cbn [orThrow].
  repeat split.
  - exact (pemEncode_nonempty _ _ _ Hp).
  - rewrite Hr. exact (base64ToBuf_exact _ _ Hb).
Qed.

Lemma handleVerificar_decoded (s : State) (key : CryptoKey)
    (sigBuf : bytes) :
  pubKeyB s = Some key -> firmaB64 s <> [] ->
  base64ToBuf (firmaB64 s) = Some sigBuf ->
  handleVerificar s =
    match verifySignature key sigBuf (encode (mensaje s)) with
    | Ok esValido =>
        if negb esValido && negb (str_eqb (mensaje s) (originalMensaje s))
        then finish (setVerificacion (outcome_text TamperDetected) s) []
        else finish
               (setVerificacion
                  (if esValido then outcome_text Authentic
                   else outcome_text Invalid) s) []
    | Throw err =>
        finish (setVerificacion (outcome_text (Error (message err))) s) []
    end.
Proof.
  intros Hk Hf Hd. unfold handleVerificar.
  rewrite Hk, (is_empty_false _ Hf), Hd. reflexivity.
Qed.

(** An undecodable signature: the handler is left by the exception, with
    the state as it was. *)
Lemma handleVerificar_undecodable (s : State) (key : CryptoKey) :
  pubKeyB s = Some key -> firmaB64 s <> [] ->
  base64ToBuf (firmaB64 s) = None ->
  handleVerificar s = reject s InvalidCharacterError.
Proof.
  intros Hk Hf Hd. unfold handleVerificar.
  rewrite Hk, (is_empty_false _ Hf), Hd. reflexivity.
Qed.

Lemma attacks_S (n : nat) (s : State) :
  attacks (S n) s = st (simularAtaque (attacks n s)).
Proof.
  revert s; induction n as [|n IH]; intros s; [reflexivity|].
  change (attacks (S (S n)) s) with (attacks (S n) (st (simularAtaque s))).
  rewrite IH. reflexivity.
Qed.

(** Who writes the snapshot: the message box, and [handleFirmar] once it
    is past its guards. *)
Lemma dispatch_snapshot (e : Event) (s : State) :
  originalMensaje (st (dispatch e s))
  = match e with
    | ChangeMensaje v => v
    | Firmar => if firmar_disabled s then originalMensaje s else mensaje s
    | _ => originalMensaje s
    end.
Proof.
  unfold firmar_disabled, is_null.
  destruct e; handler_cases s; try reflexivity;
    cbn [orb] in *; congruence.
Qed.

End WorkflowFacts.

(** The small provider is lawful. *)
Lemma Toy_lawful : Lawful Toy.host.
Proof.
  assert (R : forall a, Toy.bytes_eqb a a = true).
  { induction a as [|x a IH]; simpl; [reflexivity|].
    rewrite IH, andb_true_r. apply Byte.byte_dec_lb. reflexivity. }
  constructor; cbn.
  - intros seed kp [= <-]. eexists; split; [reflexivity | discriminate].
  - intros seed kp [= <-]. eexists; split; [reflexivity | discriminate].
  - intros seed kp spki [= <-] [= <-]. eexists; reflexivity.
  - intros seed kp data [= <-]. eexists; split; [reflexivity | discriminate].
  - intros seed kp spki key data sig [= <-] [= <-] [= <-] [= <-].
    cbn. rewrite u8_to_N, R, andb_true_r. f_equal.
    apply Byte.byte_dec_lb. reflexivity.
Qed.

(** * The specification, claim by claim *)

Ltac fields :=
  cbn [privKeyA pubKeyA privPemA pubPemA pubKeyB pubPemB mensaje
       originalMensaje firmaB64 verificacion
       setPrivKeyA setPubKeyA setPrivPemA setPubPemA setPubKeyB setPubPemB
       setMensaje setOriginalMensaje setFirmaB64 setVerificacion
       st alerts settled finish reject].

(** C1, as the claim has it: the snapshot is that of signing time.  Sign
    "hello", edit the message to "bye", hand the key over and verify: the
    check answers false and the message differs from the text that was
    signed, yet the verdict is [Invalid], because the message box has
    overwritten the snapshot. *)
Lemma verify_after_edit_counterexample :
  originalMensaje demo_signed = js "hello"
  /\ firmaB64 demo_edited = firmaB64 demo_signed
  /\ mensaje demo_edited = js "bye"
  /\ pubKeyB demo_edited = Some (Toy.PublicKey 7)
  /\ base64ToBuf (firmaB64 demo_edited)
     = Some [x07; x68; x65; x6c; x6c; x6f]
  /\ verifySignature (host := Toy.host) (Toy.PublicKey 7)
       [x07; x68; x65; x6c; x6c; x6f] (encode (mensaje demo_edited))
     = Ok false
  /\ verificacion (st (handleVerificar demo_edited)) = outcome_text Invalid
  /\ outcome_text Invalid <> outcome_text TamperDetected.
Proof.
  repeat apply conj; try (vm_compute; reflexivity).
  intros H. vm_compute in H. discriminate H.
Qed.

(** C1. When [handleVerificar] runs with an imported key and a stored
    signature that decodes, and the cryptographic check answers [esValido],
    the text it shows is that of [Authentic] if [esValido] is true, that of
    [TamperDetected] if it is false and the message differs from the stored
    snapshot, and that of [Invalid] if it is false and the message equals
    the stored snapshot.  The stored snapshot is written by two events
    only: an edit in the message box sets it to the edited text, and
    "Firmar", once past its guards, sets it to the message; every other
    event leaves it. *)
Theorem verify_outcome_derivation {host : Host} (s : State)
    (key : CryptoKey) (sigBuf : bytes) (esValido : bool) :
  pubKeyB s = Some key -> firmaB64 s <> [] ->
  base64ToBuf (firmaB64 s) = Some sigBuf ->
  verifySignature key sigBuf (encode (mensaje s)) = Ok esValido ->
  (esValido = true ->
   verificacion (st (handleVerificar s)) = outcome_text Authentic)
  /\ (esValido = false -> mensaje s <> originalMensaje s ->
      verificacion (st (handleVerificar s)) = outcome_text TamperDetected)
  /\ (esValido = false -> mensaje s = originalMensaje s ->
      verificacion (st (handleVerificar s)) = outcome_text Invalid)
  /\ (forall (e : Event) (s0 : State),
        originalMensaje (st (dispatch e s0))
        = match e with
          | ChangeMensaje v => v
          | Firmar =>
              if firmar_disabled s0 then originalMensaje s0 else mensaje s0
          | _ => originalMensaje s0
          end).
Proof.
  intros Hk Hf Hd Hv.
  rewrite (handleVerificar_decoded s key sigBuf Hk Hf Hd), Hv.
  repeat apply conj.
  - intros ->. reflexivity.
  - intros -> Hne. apply str_eqb_neq in Hne. rewrite Hne. reflexivity.
  - intros -> He. apply str_eqb_eq in He. rewrite He. reflexivity.
  - exact dispatch_snapshot.
Qed.

Lemma verify_outcome_derivation_witness :
  verificacion (st (handleVerificar demo_edited)) = outcome_text Invalid
  /\ originalMensaje (st (dispatch (ChangeMensaje (js "bye")) demo_signed))
     = js "bye".
Proof.
  refine (match
            verify_outcome_derivation demo_edited (Toy.PublicKey 7)
              [x07; x68; x65; x6c; x6c; x6f] false _ _ _ _
          with
          | conj _ (conj _ (conj H3 H4)) =>
              conj (H3 eq_refl _) (H4 (ChangeMensaje (js "bye")) demo_signed)
          end).
  - vm_compute. reflexivity.
  - intros H. vm_compute in H. discriminate H.
  - vm_compute. reflexivity.
  - vm_compute. reflexivity.
  - vm_compute. reflexivity.
Defined.

(** C2. On a lawful provider: generate a key pair, sign a non-empty
    message, hand the exported public key to the receiver, import it and
    verify; the outcome shown is [Authentic]. *)
Theorem sign_then_verify_authentic {host : Host} (s : State) (seed : Seed)
    (kp : CryptoKeyPair CryptoKey) :
  Lawful host -> subtle_generateKey seed = Ok kp -> mensaje s <> [] ->
  let s1 := st (handleGenerarClaves seed s) in
  let s2 := st (handleFirmar s1) in
  let s3 := st (copiarDeEmisor s2) in
  let s4 := st (handleImportarPubEnReceptor s3) in
  verificacion (st (handleVerificar s4)) = outcome_text Authentic.
Proof.
  intros L Hg Hm.
  destruct (exports_private L seed kp Hg) as (pkcs8 & He1 & Hn1).
  destruct (exports_public L seed kp Hg) as (spki & He2 & Hn2).
  destruct (imports_exported L seed kp spki Hg He2) as (key & Hi).
  destruct (signs L seed kp (encode (mensaje s)) Hg) as (sig & Hs & Hns).
  pose proof (verifies L _ _ _ _ _ _ Hg He2 Hi Hs) as Hv.
  destruct (export_pem Pkcs8 _ _ (js "PRIVATE KEY") He1 Hn1
              ltac:(repeat constructor)) as (privPem & Hp1 & _ & _).
  destruct (export_pem Spki _ _ (js "PUBLIC KEY") He2 Hn2
              ltac:(repeat constructor)) as (pubPem & Hp2 & Hne & Hdec).
  destruct (bufToBase64 sig) as [firma|] eqn:Hb;
    [|rewrite bufToBase64_total in Hb; discriminate].
  destruct (bufToBase64_text sig firma Hns Hb) as [Hfirma _].
  intros s1 s2 s3 s4.
  assert (E1 : s1 = setPubPemA pubPem (setPrivPemA privPem
                      (setPubKeyA (Some (publicKey kp))
                         (setPrivKeyA (Some (privateKey kp)) s)))).
  { subst s1. unfold handleGenerarClaves, generateKeyPair. rewrite Hg.
    unfold exportPrivateKeyToPEM, exportPublicKeyToPEM.
    rewrite Hp1. cbn [bind]. rewrite Hp2. reflexivity. }
  assert (E2 : s2 = setFirmaB64 firma (setOriginalMensaje (mensaje s) s1)).
  { subst s2. unfold handleFirmar. rewrite E1. fields.
    rewrite (is_empty_false _ Hm). unfold signMessage. rewrite Hs.
    cbn [bind]. rewrite Hb. reflexivity. }
  assert (E3 : s3 = setPubPemB pubPem s2).
  { subst s3. unfold copiarDeEmisor. rewrite E2, E1. fields.
    rewrite Hne. reflexivity. }
  assert (E4 : s4 = setPubKeyB (Some key) s3).
  { subst s4. unfold handleImportarPubEnReceptor. rewrite E3. fields.
    rewrite Hne. unfold importPublicKeyFromPEM. rewrite Hdec.
    cbn [orThrow bind]. rewrite Hi. reflexivity. }
  rewrite (handleVerificar_decoded s4 key sig).
  - rewrite E4, E3, E2, E1. fields. unfold verifySignature. rewrite Hv.
    reflexivity.
  - rewrite E4. reflexivity.
  - rewrite E4, E3, E2. fields. exact Hfirma.
  - rewrite E4, E3, E2. fields. exact (base64ToBuf_exact _ _ Hb).
Qed.

Lemma sign_then_verify_authentic_witness :
  verificacion
    (st (handleVerificar
           (st (handleImportarPubEnReceptor
                  (st (copiarDeEmisor
                         (st (handleFirmar
                                (st (handleGenerarClaves (host := Toy.host) 7
                                       demo_start))))))))))
  = outcome_text Authentic.
Proof.
  refine (sign_then_verify_authentic (host := Toy.host) demo_start 7
            {| privateKey := Toy.PrivateKey 7; publicKey := Toy.PublicKey 7 |}
            Toy_lawful eq_refl _).
  intros H. vm_compute in H. discriminate H.
Defined.

(** C3. A stored signature that does not decode, with a key imported:
    [base64ToBuf] throws before the [try] block is entered, so the promise
    of the handler is rejected with that exception; no [Error] text is
    written, the state is as it was and nothing is shown. *)
Theorem verify_undecodable_signature {host : Host} (s : State)
    (key : CryptoKey) :
  pubKeyB s = Some key -> firmaB64 s <> [] ->
  base64ToBuf (firmaB64 s) = None ->
  settled (handleVerificar s) = Rejected InvalidCharacterError
  /\ st (handleVerificar s) = s
  /\ alerts (handleVerificar s) = [].
Proof.
  intros Hk Hf Hd.
  rewrite (handleVerificar_undecodable s key Hk Hf Hd).
  repeat split.
Qed.

Lemma verify_undecodable_signature_witness :
  settled (handleVerificar demo_garbled)
  = Rejected (@InvalidCharacterError Toy.host)
  /\ st (handleVerificar demo_garbled) = demo_garbled
  /\ alerts (handleVerificar demo_garbled) = [].
Proof.
  refine (verify_undecodable_signature (host := Toy.host) demo_garbled
            (Toy.PublicKey 7) _ _ _).
  - vm_compute. reflexivity.
  - intros H. vm_compute in H. discriminate H.
  - vm_compute. reflexivity.
Defined.

(** With ["!!!"] in the signature box the outcome stays unset. *)
Example verify_undecodable_outcome_unset :
  firmaB64 demo_garbled = js "!!!"
  /\ base64ToBuf (js "!!!") = None
  /\ verificacion (st (handleVerificar demo_garbled)) = [].
Proof. repeat split; vm_compute; reflexivity. Qed.

(** C4, as the claim has it: the marker is not [" [MODIFIED BY ATTACK]"]. *)
Lemma attack_suffix_counterexample :
  mensaje (st (simularAtaque demo_start)) = js "hello [MODIFICADO POR ATAQUE]"
  /\ mensaje (st (simularAtaque demo_start)) <> js "hello [MODIFIED BY ATTACK]".
Proof.
  split; [vm_compute; reflexivity|].
  intros H. vm_compute in H. discriminate H.
Qed.

(** C4, amended. "Simular Ataque" replaces the message [m] by [m] followed
    by [" [MODIFICADO POR ATAQUE]"] and changes no other field, the
    snapshot and the signature among them; [n] clicks append the marker [n]
    times, and a second click changes the message again. *)
Theorem attack_appends_suffix {host : Host} (s : State) (n : nat) :
  attack_suffix = js " [MODIFICADO POR ATAQUE]"
  /\ st (simularAtaque s) = setMensaje (mensaje s ++ attack_suffix) s
  /\ mensaje (attacks n s) = mensaje s ++ concat (repeat attack_suffix n)
  /\ originalMensaje (attacks n s) = originalMensaje s
  /\ firmaB64 (attacks n s) = firmaB64 s
  /\ attacks n s = setMensaje (mensaje (attacks n s)) s
  /\ mensaje (attacks 2 s) <> mensaje (attacks 1 s).
Proof.
  assert (A : attacks n s
              = setMensaje (mensaje s ++ concat (repeat attack_suffix n)) s).
  { induction n as [|n IH].
    - destruct s; cbn. rewrite app_nil_r. reflexivity.
    - rewrite attacks_S, IH. unfold simularAtaque. fields.
      unfold setMensaje. fields. rewrite <- app_assoc. do 2 f_equal.
      clear IH. induction n as [|n IH]; cbn [repeat concat].
      + rewrite app_nil_r. reflexivity.
      + rewrite <- app_assoc, IH. reflexivity. }
  repeat split; try (rewrite A; reflexivity).
  intros H. apply (f_equal (@length N)) in H.
  cbn [attacks] in H. unfold simularAtaque in H. fields. revert H. fields.
  rewrite !length_app. change (length attack_suffix) with 24%nat. lia.
Qed.

(** C5, as the claim has it: a tag that holds a line break is not removed
    with its line, and an empty text cannot be armored at all. *)
Lemma armor_unarmor_counterexample :
  pemEncode (js "QUJD") (js "A" ++ nl ++ js "B")
  = Some (js "-----BEGIN A" ++ nl ++ js "B-----" ++ nl ++ js "QUJD" ++ nl
            ++ js "-----END A" ++ nl ++ js "B-----")
  /\ pemToBase64 (js "-----BEGIN A" ++ nl ++ js "B-----" ++ nl ++ js "QUJD"
                    ++ nl ++ js "-----END A" ++ nl ++ js "B-----")
     = js "-----BEGINAB-----QUJD-----ENDAB-----"
  /\ pemEncode [] (js "PUBLIC KEY") = None.
Proof. repeat split; vm_compute; reflexivity. Qed.

(** C5, amended. For every non-empty Base64 text [x] and every tag without
    a line terminator, [pemEncode x tag] gives an armored text and
    [pemToBase64] of it is [x]. *)
Theorem armor_unarmor (x tag : jsstring) :
  x <> [] -> Forall (fun c => is_b64_text c = true) x ->
  Forall (fun c => is_line_terminator c = false) tag ->
  exists pem, pemEncode x tag = Some pem /\ pemToBase64 pem = x.
Proof.
  intros Hne Hx Htag.
  apply pem_roundtrip; [exact Hne | | exact Htag].
  apply b64_text_plain, Hx.
Qed.

Lemma armor_unarmor_witness :
  exists pem,
    pemEncode (js "QUJD") (js "PUBLIC KEY") = Some pem
    /\ pemToBase64 pem = js "QUJD".
Proof.
  refine (armor_unarmor (js "QUJD") (js "PUBLIC KEY") _ _ _).
  - intros H. vm_compute in H. discriminate H.
  - vm_compute. repeat constructor.
  - vm_compute. repeat constructor.
Defined.

(** C6, as the claim has it: ["A"] has no character outside the alphabet
    and no whitespace, and [base64ToBuf] fails on it. *)
Lemma decode_failure_counterexample :
  strip_ascii_ws (js "A") = js "A"
  /\ forallb is_b64 (js "A") = true
  /\ base64ToBuf (js "A") = None.
Proof. repeat split; vm_compute; reflexivity. Qed.

(** C6, amended. [base64ToBuf] removes ASCII whitespace and, from a text
    whose length is then a multiple of four, one or two closing [=]; it
    fails exactly when what is left has a length of 1 modulo 4 or holds a
    character outside the alphabet.  It decodes the Base64 text of a buffer
    to that buffer, wherever ASCII whitespace has been put into it. *)
Theorem base64ToBuf_failure (s : jsstring) :
  (base64ToBuf s = None <->
   N.of_nat (length (atob_payload s)) mod 4 = 1
   \/ exists c, In c (atob_payload s) /\ is_b64 c = false)
  /\ (forall buffer,
        bufToBase64 buffer = Some (strip_ascii_ws s) ->
        base64ToBuf s = Some buffer).
Proof.
  split.
  - rewrite <- atob_fails_iff. unfold base64ToBuf.
    destruct (atob s); split; congruence.
  - intros buffer H.
    exact (base64ToBuf_bufToBase64 buffer _ s H eq_refl).
Qed.

Lemma base64ToBuf_failure_witness :
  base64ToBuf (js "QU JD") = Some [x41; x42; x43].
Proof.
  refine (proj2 (base64ToBuf_failure (js "QU JD")) [x41; x42; x43] _).
  vm_compute. reflexivity.
Defined.



(** Mismatched tags, two blocks and no block at all are accepted. *)
Example pemToBase64_mismatched_tags :
  pemToBase64 (js "-----BEGIN A-----" ++ nl ++ js "QUJD" ++ nl
                 ++ js "-----END B-----") = js "QUJD".
Proof. vm_compute. reflexivity. Qed.

Example pemToBase64_two_blocks :
  pemToBase64 (js "-----BEGIN A-----" ++ nl ++ js "QUJD" ++ nl
                 ++ js "-----END A-----" ++ nl
                 ++ js "-----BEGIN A-----" ++ nl ++ js "RUZH" ++ nl
                 ++ js "-----END A-----") = js "QUJDRUZH".
Proof. vm_compute. reflexivity. Qed.

Example pemToBase64_no_block : pemToBase64 (js "QU JD") = js "QUJD".
Proof. vm_compute. reflexivity. Qed.



(** C9. When the signing primitive throws, [handleFirmar] has already
    replaced the snapshot by the current message; the signature text and
    every other field are as before, and the error is shown. *)
Theorem sign_failure_keeps_snapshot {host : Host} (s : State)
    (key : CryptoKey) (err : JsError) :
  privKeyA s = Some key -> mensaje s <> [] ->
  signMessage key (encode (mensaje s)) = Throw err ->
  st (handleFirmar s) = setOriginalMensaje (mensaje s) s
  /\ originalMensaje (st (handleFirmar s)) = mensaje s
  /\ firmaB64 (st (handleFirmar s)) = firmaB64 s
  /\ alerts (handleFirmar s) = [js "Error firmando: " ++ message err].
Proof.
  intros Hk Hm Hs.
  assert (E : handleFirmar s
              = finish (setOriginalMensaje (mensaje s) s)
                  [js "Error firmando: " ++ message err]).
  { unfold handleFirmar. rewrite Hk, (is_empty_false _ Hm), Hs.
    reflexivity. }
  rewrite E. repeat split.
Qed.

Lemma sign_failure_keeps_snapshot_witness :
  st (handleFirmar demo_unsignable)
  = setOriginalMensaje (js "new") demo_unsignable
  /\ originalMensaje (st (handleFirmar demo_unsignable)) = js "new"
  /\ firmaB64 (st (handleFirmar demo_unsignable)) = js "QUJD"
  /\ alerts (handleFirmar demo_unsignable)
     = [js "Error firmando: " ++ js "operation refused"].
Proof.
  refine (sign_failure_keeps_snapshot (host := Toy.host) demo_unsignable
            (Toy.PublicKey 1) Toy.refused _ _ _).
  - vm_compute. reflexivity.
  - intros H. vm_compute in H. discriminate H.
  - vm_compute. reflexivity.
Defined.

(** C10. [handleVerificar] writes [verificacion] and nothing else: whatever
    it shows, and also when it shows nothing, every other field of the
    state is as before. *)
Theorem verify_frame {host : Host} (s : State) :
  privKeyA (st (handleVerificar s)) = privKeyA s
  /\ pubKeyA (st (handleVerificar s)) = pubKeyA s
  /\ privPemA (st (handleVerificar s)) = privPemA s
  /\ pubPemA (st (handleVerificar s)) = pubPemA s
  /\ pubKeyB (st (handleVerificar s)) = pubKeyB s
  /\ pubPemB (st (handleVerificar s)) = pubPemB s
  /\ mensaje (st (handleVerificar s)) = mensaje s
  /\ originalMensaje (st (handleVerificar s)) = originalMensaje s
  /\ firmaB64 (st (handleVerificar s)) = firmaB64 s.
Proof.
  assert (E : exists v, st (handleVerificar s) = setVerificacion v s).
  { unfold handleVerificar.
    destruct (pubKeyB s) as [key|];
      [|exists (verificacion s); destruct s; reflexivity].
    destruct (is_empty (firmaB64 s));
      [exists (verificacion s); destruct s; reflexivity|].
    destruct (base64ToBuf (firmaB64 s)) as [sigBuf|];
      [|exists (verificacion s); destruct s; reflexivity].
    destruct (verifySignature key sigBuf (encode (mensaje s)))
      as [esValido|err]; [|eexists; reflexivity].
    destruct (negb esValido
              && negb (str_eqb (mensaje s) (originalMensaje s)));
      eexists; reflexivity. }
  destruct E as [v ->]. repeat split.
Qed.

(** * Further properties of the codec *)

Lemma base64_encode_len (l : list N) :
  length (base64_encode l) = (4 * ((length l + 2) / 3))%nat.
Proof.
  induction l as [| a | a b | a b c l IH] using list_ind3;
    try reflexivity.
  cbn [base64_encode length]. rewrite IH.
  replace (S (S (S (length l))) + 2)%nat with ((length l + 2) + 1 * 3)%nat
    by lia.
  rewrite Nat.div_add by lia. lia.
Qed.

Lemma strip_padding_b64 (d : jsstring) :
  forallb is_b64 d = true -> strip_padding d = d.
Proof.
  induction d as [|c d IH]; [reflexivity|].
  cbn [forallb]. intros H. apply andb_true_iff in H as [Hc Hd].
  specialize (IH Hd).
  destruct d as [|c2 [|c3 d]].
  - cbn. rewrite (is_b64_not_pad c Hc). reflexivity.
  - cbn. cbn in Hd. apply andb_true_iff in Hd as [Hc2 _].
    rewrite (is_b64_not_pad c2 Hc2). reflexivity.
  - rewrite strip_padding_cons, IH. reflexivity.
Qed.

(** Decoding a bare encoding, with no padding at all. *)
Lemma atob_encode_bare (l : list N) :
  bounded l -> atob (base64_encode_bare l) = Some l.
Proof.
  intros Hl. unfold atob, atob_payload.
  pose proof (base64_encode_bare_b64 l Hl) as Hb.
  rewrite strip_ascii_ws_id.
  2:{ apply Forall_forall. intros c Hc. apply is_b64_text_not_ascii_ws.
      apply is_b64_is_text. revert c Hc. apply forallb_forall. exact Hb. }
  rewrite (strip_padding_b64 _ Hb).
  assert (E : (if N.of_nat (length (base64_encode_bare l)) mod 4 =? 0
               then base64_encode_bare l else base64_encode_bare l)
              = base64_encode_bare l)
    by (destruct (_ =? 0); reflexivity).
  rewrite E.
  destruct (N.eqb_spec (N.of_nat (length (base64_encode_bare l)) mod 4) 1)
    as [F|_].
  - exfalso. exact (base64_encode_bare_length l F).
  - rewrite Hb. cbn [negb].
    rewrite base64_decode_encode_bare by assumption. reflexivity.
Qed.

(** X1. Whenever [bufToBase64] returns a text for a buffer, [base64ToBuf]
    gives that buffer back from the text, the empty buffer included; so no
    two buffers have the same text. *)
Theorem base64_round_trip (buffer : bytes) (text : jsstring) :
  bufToBase64 buffer = Some text ->
  base64ToBuf text = Some buffer
  /\ (forall other, bufToBase64 other = Some text -> other = buffer).
Proof.
  intros H. pose proof (base64ToBuf_exact _ _ H) as R. split; [exact R|].
  intros other Ho. apply base64ToBuf_exact in Ho. congruence.
Qed.

Lemma base64_round_trip_witness :
  base64ToBuf (js "QUI=") = Some [x41; x42]
  /\ (forall other, bufToBase64 other = Some (js "QUI=")
                    -> other = [x41; x42]).
Proof.
  refine (base64_round_trip [x41; x42] (js "QUI=") _).
  vm_compute. reflexivity.
Defined.

(** X2. The text [bufToBase64] returns for a buffer of [n] bytes has
    [4 * ceil (n / 3)] characters, each of the alphabet or the padding
    [=]. *)
Theorem bufToBase64_shape (buffer : bytes) (text : jsstring) :
  bufToBase64 buffer = Some text ->
  length text = (4 * ((length buffer + 2) / 3))%nat
  /\ Forall (fun c => is_b64_text c = true) text.
Proof.
  rewrite bufToBase64_total. intros [= <-]. split.
  - rewrite base64_encode_len. unfold fromCharCode.
    rewrite length_map. reflexivity.
  - apply base64_encode_text, bounded_forallb, fromCharCode_bounded.
Qed.

Lemma bufToBase64_shape_witness :
  length (js "QUJDRA==") = (4 * ((length [x41; x42; x43; x44] + 2) / 3))%nat
  /\ Forall (fun c => is_b64_text c = true) (js "QUJDRA==").
Proof.
  refine (bufToBase64_shape [x41; x42; x43; x44] (js "QUJDRA==") _).
  vm_compute. reflexivity.
Defined.

(** X3. The padding is optional when decoding: the text [bufToBase64]
    returns for a buffer, with its closing [=] removed, decodes to the same
    buffer. *)
Theorem base64ToBuf_without_padding (buffer : bytes) (text : jsstring) :
  bufToBase64 buffer = Some text ->
  base64ToBuf (strip_padding text) = Some buffer.
Proof.
  rewrite bufToBase64_total. intros [= <-].
  assert (Hb : bounded (fromCharCode buffer))
    by apply bounded_forallb, fromCharCode_bounded.
  rewrite strip_padding_encode by exact Hb.
  unfold base64ToBuf. rewrite atob_encode_bare by exact Hb.
  rewrite map_u8_fromCharCode. reflexivity.
Qed.

Lemma base64ToBuf_without_padding_witness :
  base64ToBuf (js "QQ") = Some [x41].
Proof.
  refine (base64ToBuf_without_padding [x41] (js "QQ==") _).
  vm_compute. reflexivity.
Defined.

(** ** The lines of [pemEncode] *)

Lemma scan_skipn (re : jsstring -> option nat) (k : nat) (s : jsstring) :
  scan re k s = scan re O (skipn k s).
Proof.
  revert k; induction s as [|c s IH]; intros [|k]; try reflexivity.
  cbn [scan skipn]. apply IH.
Qed.

Lemma count_while_all (f : N -> bool) (n : nat) (s : jsstring) :
  Forall (fun c => f c = true) s -> count_while f n s = Nat.min n (length s).
Proof.
  intros Hs. revert n; induction Hs as [|c s Hc _ IH]; intros [|n];
    try reflexivity.
  cbn [count_while length Nat.min]. rewrite Hc, IH. reflexivity.
Qed.

Lemma not_terminator_negb (s : jsstring) :
  Forall not_terminator s ->
  Forall (fun c => negb (is_line_terminator c) = true) s.
Proof.
  apply Forall_impl. unfold not_terminator. intros c ->. reflexivity.
Qed.

Lemma matched_line64_wrapped (n : nat) (s : jsstring) :
  (length s <= n)%nat -> Forall not_terminator s ->
  hard_wrapped 64 (matched (scan re_line64 O s)).
Proof.
  revert s; induction n as [|n IH]; intros s Hn Hs.
  - destruct s; [exact I | simpl in Hn; lia].
  - destruct s as [|c s]; [exact I|].
    inversion_clear Hs as [|? ? Hc Hs'].
    cbn [scan]. rewrite re_line64_cons by exact Hc.
    rewrite (count_while_all _ 63 s (not_terminator_negb s Hs')).
    cbn [matched]. rewrite scan_skipn.
    assert (Hlen : length (firstn (S (Nat.min 63 (length s))) (c :: s))
                   = S (Nat.min 63 (length s))).
    { rewrite length_firstn. cbn [length]. lia. }
    assert (Hrest : hard_wrapped 64
                      (matched (scan re_line64 O
                                  (skipn (Nat.min 63 (length s)) s)))).
    { apply IH.
      - rewrite length_skipn. simpl in Hn. lia.
      - rewrite <- (firstn_skipn (Nat.min 63 (length s)) s) in Hs'.
        apply Forall_app in Hs'. apply Hs'. }
    destruct (Nat.le_gt_cases (length s) 63) as [Hle|Hgt].
    + rewrite Nat.min_r in * by exact Hle.
      rewrite skipn_all. cbn [scan matched hard_wrapped].
      rewrite Hlen. lia.
    + rewrite Nat.min_l in * by lia.
      destruct (matched (scan re_line64 O (skipn 63 s))) as [|l ls].
      * cbn [hard_wrapped]. rewrite Hlen. lia.
      * change (length (firstn 64 (c :: s)) = 64%nat
                /\ hard_wrapped 64 (l :: ls)).
        split; [exact Hlen | exact Hrest].
Qed.

(** X4. The body of an armored text is the Base64 text cut into lines of
    exactly 64 characters, the last one of 1 to 64: for a non-empty text
    without line terminators [pemEncode] succeeds, its lines are hard
    wrapped at 64 and, joined end to end, they are the text. *)
Theorem pemEncode_hard_wraps (x tag : jsstring) :
  x <> [] -> Forall (fun c => is_line_terminator c = false) x ->
  exists lines,
    pemEncode x tag
    = Some (js "-----BEGIN " ++ tag ++ js "-----" ++ nl
              ++ join nl lines ++ nl
              ++ js "-----END " ++ tag ++ js "-----")
    /\ concat lines = x
    /\ hard_wrapped 64 lines.
Proof.
  intros Hne Hx.
  destruct (match_all_line64 x Hne Hx) as (lines & Hm & Hc).
  exists lines. unfold pemEncode. rewrite Hm.
  split; [reflexivity|]. split; [exact Hc|].
  unfold match_all in Hm.
  pose proof (matched_line64_wrapped (length x) x (Nat.le_refl _) Hx) as W.
  destruct (matched (scan re_line64 O x)) as [|l ls]; [discriminate|].
  injection Hm as <-. exact W.
Qed.

Lemma pemEncode_hard_wraps_witness :
  exists lines,
    pemEncode (repeat 65 130) (js "PUBLIC KEY")
    = Some (js "-----BEGIN " ++ js "PUBLIC KEY" ++ js "-----" ++ nl
              ++ join nl lines ++ nl
              ++ js "-----END " ++ js "PUBLIC KEY" ++ js "-----")
    /\ concat lines = repeat 65 130
    /\ hard_wrapped 64 lines.
Proof.
  refine (pemEncode_hard_wraps (repeat 65 130) (js "PUBLIC KEY") _ _).
  - intros H. vm_compute in H. discriminate H.
  - vm_compute. repeat constructor.
Defined.

Lemma matched_line64_nil (k : nat) (s : jsstring) :
  matched (scan re_line64 k s) = []
  <-> Forall (fun c => is_line_terminator c = true) (skipn k s).
Proof.
  revert k; induction s as [|c s IH]; intros k.
  - destruct k; cbn; split; auto.
  - destruct k as [|k]; cbn [scan skipn]; [|apply IH].
    destruct (is_line_terminator c) eqn:Hc.
    + assert (E : re_line64 (c :: s) = None).
      { unfold re_line64. cbn [count_while]. rewrite Hc. reflexivity. }
      rewrite E. cbn [matched]. rewrite (IH O). cbn [skipn].
      split; [intros H; constructor; assumption | intros H; inversion H; auto].
    + rewrite re_line64_cons by exact Hc. cbn [matched].
      split; [discriminate|]. intros H. inversion H. congruence.
Qed.

(** X5. [pemEncode] throws (the [TypeError] of [null.join]) exactly on a
    text that holds nothing but line terminators, the empty text among
    them; the tag plays no part. *)
Theorem pemEncode_throws_iff (x tag : jsstring) :
  pemEncode x tag = None
  <-> Forall (fun c => is_line_terminator c = true) x.
Proof.
  rewrite <- (matched_line64_nil O x : _ <-> Forall _ (skipn O x)).
  unfold pemEncode, match_all.
  destruct (matched (scan re_line64 O x)); split;
    congruence || discriminate.
Qed.

(** ** Any armored block *)

Lemma pemToBase64_no_dash (s : jsstring) :
  Forall (fun c => c <> 45) s -> pemToBase64 s = filter not_space s.
Proof.
  intros H. rewrite pemToBase64_filter, replace_delimiter_no_dash by exact H.
  reflexivity.
Qed.

Lemma pemToBase64_block_body (mid1 mid2 body : jsstring) (t1 t2 : N) :
  Forall not_terminator mid1 -> Forall not_terminator mid2 ->
  is_line_terminator t1 = true -> is_line_terminator t2 = true ->
  Forall (fun c => c <> 45) body ->
  pemToBase64 ((dashes ++ mid1 ++ dashes)
                 ++ t1 :: body ++ t2 :: (dashes ++ mid2 ++ dashes))
  = filter not_space body.
Proof.
  intros H1 H2 Ht1 Ht2 Hb.
  rewrite pemToBase64_filter.
  rewrite !replace_delimiter_line by assumption.
  rewrite !replace_delimiter_whole by assumption.
  rewrite replace_delimiter_no_dash by exact Hb.
  cbn [app filter]. unfold not_space at 1.
  rewrite (is_space_line_terminator t1 Ht1). cbn [negb].
  rewrite filter_app. cbn [filter]. unfold not_space at 2.
  rewrite (is_space_line_terminator t2 Ht2). cbn [negb].
  apply app_nil_r.
Qed.

(** X6. [pemToBase64] of a block is its body without white space: two
    delimiter lines with any texts between their dashes (equal or not), any
    line terminators after the first and before the second (LF, CR, ...), and
    between them a body without dashes, wrapped and spaced in any way. *)
Theorem pemToBase64_block (mid1 mid2 body : jsstring) (t1 t2 : N) :
  Forall (fun c => is_line_terminator c = false) mid1 ->
  Forall (fun c => is_line_terminator c = false) mid2 ->
  is_line_terminator t1 = true -> is_line_terminator t2 = true ->
  Forall (fun c => c <> 45) body ->
  pemToBase64 ((dashes ++ mid1 ++ dashes)
                 ++ t1 :: body ++ t2 :: (dashes ++ mid2 ++ dashes))
  = filter (fun c => negb (is_space c)) body
  /\ pemToBase64 body = filter (fun c => negb (is_space c)) body.
Proof.
  intros H1 H2 Ht1 Ht2 Hb. split.
  - exact (pemToBase64_block_body mid1 mid2 body t1 t2 H1 H2 Ht1 Ht2 Hb).
  - exact (pemToBase64_no_dash body Hb).
Qed.

Lemma pemToBase64_block_witness :
  pemToBase64 ((dashes ++ js "BEGIN A" ++ dashes)
                 ++ 13 :: (10 :: js "QU JD" ++ [13])
                 ++ 10 :: (dashes ++ js "END B" ++ dashes))
  = filter (fun c => negb (is_space c)) (10 :: js "QU JD" ++ [13])
  /\ pemToBase64 (10 :: js "QU JD" ++ [13])
     = filter (fun c => negb (is_space c)) (10 :: js "QU JD" ++ [13]).
Proof.
  refine (pemToBase64_block (js "BEGIN A") (js "END B")
            (10 :: js "QU JD" ++ [13]) 13 10 _ _ eq_refl eq_refl _).
  - vm_compute. repeat constructor.
  - vm_compute. repeat constructor.
  - vm_compute. repeat (constructor; [discriminate|]). constructor.
Defined.

(** * Further properties of the workflow *)

(** The colour of each verdict; an error takes the colour of its reason. *)
Lemma panel_outcome (o : VerificationOutcome) :
  panel (outcome_text o)
  = match o with
    | Authentic => Green
    | Invalid | TamperDetected => Red
    | Error reason => panel reason
    end.
Proof.
  destruct o as [ | | |reason]; vm_compute; reflexivity.
Qed.

Lemma attack_suffix_changes (m : jsstring) : m ++ attack_suffix <> m.
Proof.
  intros H. apply (f_equal (@length N)) in H. rewrite length_app in H.
  change (length attack_suffix) with 24%nat in H. lia.
Qed.

(** [encode] of a text followed by one that does not start with a low
    surrogate. *)
Lemma encode_app (a b : jsstring) :
  match b with
  | [] => True
  | c :: _ => is_low_surrogate c = false
  end ->
  encode (a ++ b) = encode a ++ encode b.
Proof.
  intros Hb.
  assert (G : forall n a, (length a <= n)%nat ->
                          encode (a ++ b) = encode a ++ encode b).
  { clear a. induction n as [|n IH]; intros a Hn.
    - destruct a; [reflexivity | simpl in Hn; lia].
    - destruct a as [|c rest]; [reflexivity|].
      assert (Hrest : encode (rest ++ b) = encode rest ++ encode b)
        by (apply IH; simpl in Hn; lia).
      cbn [app encode].
      destruct (is_high_surrogate c).
      + destruct rest as [|d rest'].
        * cbn [app encode]. destruct b as [|e b'].
          { rewrite app_nil_r. reflexivity. }
          { rewrite Hb. reflexivity. }
        * cbn [app]. cbn [app] in Hrest.
          destruct (is_low_surrogate d).
          { rewrite IH by (simpl in Hn; lia). apply app_assoc. }
          { rewrite Hrest. apply app_assoc. }
      + destruct (is_low_surrogate c); rewrite Hrest; apply app_assoc. }
  exact (G (length a) a (Nat.le_refl _)).
Qed.

Section MoreWorkflowFacts.

Context {host : Host}.

(** The sender's side of a session on a lawful provider. *)
Lemma generate_sign_session (s : State) (seed : Seed)
    (kp : CryptoKeyPair CryptoKey) :
  Lawful host -> subtle_generateKey seed = Ok kp -> mensaje s <> [] ->
  exists privPem pubPem spki key sig firma,
    subtle_exportKey Spki (publicKey kp) = Ok spki
    /\ subtle_importKey Spki spki = Ok key
    /\ subtle_sign (privateKey kp) (encode (mensaje s)) = Ok sig
    /\ bufToBase64 sig = Some firma /\ firma <> []
    /\ is_empty pubPem = false
    /\ base64ToBuf (pemToBase64 pubPem) = Some spki
    /\ st (handleFirmar (st (handleGenerarClaves seed s)))
       = setFirmaB64 firma
           (setOriginalMensaje (mensaje s)
              (setPubPemA pubPem
                 (setPrivPemA privPem
                    (setPubKeyA (Some (publicKey kp))
                       (setPrivKeyA (Some (privateKey kp)) s))))).
Proof.
  intros L Hg Hm.
  destruct (exports_private L seed kp Hg) as (pkcs8 & He1 & Hn1).
  destruct (exports_public L seed kp Hg) as (spki & He2 & Hn2).
  destruct (imports_exported L seed kp spki Hg He2) as (key & Hi).
  destruct (signs L seed kp (encode (mensaje s)) Hg) as (sig & Hs & Hns).
  destruct (export_pem Pkcs8 _ _ (js "PRIVATE KEY") He1 Hn1
              ltac:(repeat constructor)) as (privPem & Hp1 & _ & _).
  destruct (export_pem Spki _ _ (js "PUBLIC KEY") He2 Hn2
              ltac:(repeat constructor)) as (pubPem & Hp2 & Hne & Hdec).
  destruct (bufToBase64 sig) as [firma|] eqn:Hb;
    [|rewrite bufToBase64_total in Hb; discriminate].
  destruct (bufToBase64_text sig firma Hns Hb) as [Hfirma _].
  exists privPem, pubPem, spki, key, sig, firma.
  repeat (split; [assumption|]).
  assert (E1 : st (handleGenerarClaves seed s)
               = setPubPemA pubPem (setPrivPemA privPem
                   (setPubKeyA (Some (publicKey kp))
                      (setPrivKeyA (Some (privateKey kp)) s)))).
  { unfold handleGenerarClaves, generateKeyPair. rewrite Hg.
    unfold exportPrivateKeyToPEM, exportPublicKeyToPEM.
    rewrite Hp1. cbn [bind]. rewrite Hp2. reflexivity. }
  rewrite E1. unfold handleFirmar. fields.
  rewrite (is_empty_false _ Hm). unfold signMessage. rewrite Hs.
  cbn [bind]. rewrite Hb. reflexivity.
Qed.


Lemma dispatch_keeps_pairing (e : Event) (s : State) :
  (privKeyA s = None <-> pubKeyA s = None) ->
  (privKeyA (st (dispatch e s)) = None
   <-> pubKeyA (st (dispatch e s)) = None).
Proof.
  destruct e; handler_cases s; intros H; try exact H;
    intuition congruence.
Qed.

(** While the message equals the snapshot, a verification leaves the
    verdict or writes one that is not [TamperDetected]. *)
Lemma handleVerificar_no_divergence (s : State) :
  mensaje s = originalMensaje s ->
  verificacion (st (handleVerificar s)) = verificacion s
  \/ exists o, o <> TamperDetected
               /\ verificacion (st (handleVerificar s)) = outcome_text o.
Proof.
  intros Heq. unfold handleVerificar.
  destruct (pubKeyB s) as [key|]; [|left; reflexivity].
  destruct (is_empty (firmaB64 s)); [left; reflexivity|].
  destruct (base64ToBuf (firmaB64 s)) as [sigBuf|]; [|left; reflexivity].
  right.
  destruct (verifySignature key sigBuf (encode (mensaje s)))
    as [[|]|err].
  - exists Authentic. split; [discriminate | reflexivity].
  - exists Invalid. split; [discriminate|].
    rewrite Heq, str_eqb_refl. reflexivity.
  - exists (Error (message err)). split; [discriminate | reflexivity].
Qed.

(** One event other than the attack keeps the message equal to the
    snapshot and the verdict off [TamperDetected]. *)
Lemma dispatch_keeps_untampered (e : Event) (s : State) :
  e <> SimularAtaque ->
  mensaje s = originalMensaje s ->
  verificacion s <> outcome_text TamperDetected ->
  mensaje (st (dispatch e s)) = originalMensaje (st (dispatch e s))
  /\ verificacion (st (dispatch e s)) <> outcome_text TamperDetected.
Proof.
  intros He Hm Hv. split.
  - clear Hv. destruct e; try congruence; clear He; revert Hm;
      handler_cases s; intros Hm; first [exact Hm | reflexivity].
  - destruct e; try congruence; clear He.
    5:{ cbn [dispatch].
        destruct (handleVerificar_no_divergence s Hm) as [E|(o & Ho & E)];
          rewrite E; [exact Hv|].
        intros H. apply outcome_text_inj in H. exact (Ho H). }
    all: revert Hv; clear Hm; handler_cases s; intros Hv; exact Hv.
Qed.

End MoreWorkflowFacts.

(** X7. A public key that exports to a non-empty buffer exports to a
    non-empty PEM text, and importing that text hands the provider exactly
    the exported bytes. *)
Theorem key_text_round_trip {host : Host} (key : CryptoKey) (spki : bytes) :
  subtle_exportKey Spki key = Ok spki -> spki <> [] ->
  exists pem,
    exportPublicKeyToPEM key = Ok pem
    /\ pem <> []
    /\ importPublicKeyFromPEM pem = subtle_importKey Spki spki.
Proof.
  intros He Hne.
  destruct (export_pem Spki key spki (js "PUBLIC KEY") He Hne
              ltac:(repeat constructor)) as (pem & Hp & Hn & Hd).
  exists pem. split; [exact Hp|]. split.
  - intros ->. discriminate Hn.
  - unfold importPublicKeyFromPEM. rewrite Hd. reflexivity.
Qed.

Lemma key_text_round_trip_witness :
  exists pem,
    exportPublicKeyToPEM (host := Toy.host) (Toy.PublicKey 7) = Ok pem
    /\ pem <> []
    /\ importPublicKeyFromPEM (host := Toy.host) pem
       = Toy.importKey Spki [x30; x07].
Proof.
  refine (key_text_round_trip (host := Toy.host) (Toy.PublicKey 7)
            [x30; x07] eq_refl _).
  discriminate.
Defined.

(** X8. Importing tolerates any layout of the key text: if the body, with
    its white space removed, is the Base64 text of a buffer, then the body
    alone, and the body between any two delimiter lines, import as that
    buffer. *)
Theorem import_tolerates_reflow {host : Host} (spki : bytes)
    (text body mid1 mid2 : jsstring) (t1 t2 : N) :
  bufToBase64 spki = Some text ->
  filter (fun c => negb (is_space c)) body = text ->
  Forall (fun c => is_line_terminator c = false) mid1 ->
  Forall (fun c => is_line_terminator c = false) mid2 ->
  is_line_terminator t1 = true -> is_line_terminator t2 = true ->
  importPublicKeyFromPEM
    ((dashes ++ mid1 ++ dashes)
       ++ t1 :: body ++ t2 :: (dashes ++ mid2 ++ dashes))
  = subtle_importKey Spki spki
  /\ importPublicKeyFromPEM body = subtle_importKey Spki spki.
Proof.
  intros Hb Hf H1 H2 Ht1 Ht2.
  assert (Hd : Forall (fun c => c <> 45) body).
  { apply Forall_forall. intros c Hc Heq. subst c.
    assert (Hin : In 45 (filter (fun c => negb (is_space c)) body))
      by (apply filter_In; split; [exact Hc | reflexivity]).
    rewrite Hf in Hin. rewrite bufToBase64_total in Hb. injection Hb as <-.
    pose proof (base64_encode_text (fromCharCode spki)
                  (bounded_forallb _ (fromCharCode_bounded spki))) as Ht.
    rewrite Forall_forall in Ht. specialize (Ht 45 Hin). discriminate Ht. }
  unfold importPublicKeyFromPEM.
  rewrite (pemToBase64_block_body mid1 mid2 body t1 t2 H1 H2 Ht1 Ht2 Hd).
  rewrite (pemToBase64_no_dash body Hd).
  unfold not_space. rewrite Hf, (base64ToBuf_exact _ _ Hb).
  split; reflexivity.
Qed.

Lemma import_tolerates_reflow_witness :
  importPublicKeyFromPEM (host := Toy.host)
    ((dashes ++ js "BEGIN PUBLIC KEY" ++ dashes)
       ++ 13 :: (10 :: js "MA c=" ++ [13])
       ++ 10 :: (dashes ++ js "END PUBLIC KEY" ++ dashes))
  = Toy.importKey Spki [x30; x07]
  /\ importPublicKeyFromPEM (host := Toy.host) (10 :: js "MA c=" ++ [13])
     = Toy.importKey Spki [x30; x07].
Proof.
  refine (import_tolerates_reflow (host := Toy.host) [x30; x07] (js "MAc=")
            (10 :: js "MA c=" ++ [13]) (js "BEGIN PUBLIC KEY")
            (js "END PUBLIC KEY") 13 10 _ _ _ _ eq_refl eq_refl).
  - vm_compute. reflexivity.
  - vm_compute. reflexivity.
  - vm_compute. repeat constructor.
  - vm_compute. repeat constructor.
Defined.

(** X9. Key generation is not atomic: when the pair is generated and the
    export of one of its keys throws, the new handles are stored while both
    key texts stay those of before, and the error is shown. *)
Theorem generate_export_failure {host : Host} (s : State) (seed : Seed)
    (kp : CryptoKeyPair CryptoKey) (err : JsError) :
  generateKeyPair seed = Ok kp ->
  exportPrivateKeyToPEM (privateKey kp) = Throw err
  \/ (exists privPem, exportPrivateKeyToPEM (privateKey kp) = Ok privPem)
     /\ exportPublicKeyToPEM (publicKey kp) = Throw err ->
  st (handleGenerarClaves seed s)
  = setPubKeyA (Some (publicKey kp)) (setPrivKeyA (Some (privateKey kp)) s)
  /\ privPemA (st (handleGenerarClaves seed s)) = privPemA s
  /\ pubPemA (st (handleGenerarClaves seed s)) = pubPemA s
  /\ alerts (handleGenerarClaves seed s)
     = [js "Error generando claves: " ++ message err].
Proof.
  intros Hg He.
  assert (E : handleGenerarClaves seed s
              = finish (setPubKeyA (Some (publicKey kp))
                          (setPrivKeyA (Some (privateKey kp)) s))
                  [js "Error generando claves: " ++ message err]).
  { unfold handleGenerarClaves. rewrite Hg.
    destruct He as [He | [[privPem He1] He2]].
    - rewrite He. reflexivity.
    - rewrite He1. cbn [bind]. rewrite He2. reflexivity. }
  rewrite E. repeat split.
Qed.

Lemma generate_export_failure_witness :
  st (handleGenerarClaves (host := Sealed.host) 1 initial)
  = setPubKeyA (host := Sealed.host) (Some (Toy.PublicKey 1))
      (setPrivKeyA (host := Sealed.host) (Some (Toy.PrivateKey 1)) initial)
  /\ privPemA (st (handleGenerarClaves (host := Sealed.host) 1 initial))
     = privPemA (host := Sealed.host) initial
  /\ pubPemA (st (handleGenerarClaves (host := Sealed.host) 1 initial))
     = pubPemA (host := Sealed.host) initial
  /\ alerts (handleGenerarClaves (host := Sealed.host) 1 initial)
     = [js "Error generando claves: " ++ message Toy.refused].
Proof.
  refine (generate_export_failure (host := Sealed.host) initial 1
            {| privateKey := Toy.PrivateKey 1; publicKey := Toy.PublicKey 1 |}
            Toy.refused eq_refl _).
  left. reflexivity.
Defined.

(** X10. The guards of the handlers and the [disabled] attributes of their
    buttons say the same: a handler shows one of its guard alerts exactly
    in the states in which its button is disabled. *)
Theorem guards_match_disabled {host : Host} (s : State) :
  (firmar_disabled s = true
   <-> alerts (handleFirmar s) = [js "Primero genera la clave privada."]
       \/ alerts (handleFirmar s) = [js "Escribe un mensaje."])
  /\ (copiar_disabled s = true
      <-> alerts (copiarDeEmisor s)
          = [js "Primero genera claves en el emisor."])
  /\ (importar_disabled s = true
      <-> alerts (handleImportarPubEnReceptor s)
          = [js "Pega una clave pública PEM."])
  /\ (verificar_disabled s = true
      <-> alerts (handleVerificar s)
          = [js "Importa la clave pública primero."]
          \/ alerts (handleVerificar s) = [js "Pega o genera una firma."]).
Proof.
  unfold firmar_disabled, copiar_disabled, importar_disabled,
    verificar_disabled.
  repeat apply conj.
  - handler_cases s; cbn [is_null orb]; intros H;
      first [discriminate H | left; vm_compute; reflexivity
            | right; vm_compute; reflexivity].
  - handler_cases s; cbn [is_null orb]; try reflexivity;
      intros [H|H]; vm_compute in H; discriminate H.
  - handler_cases s; intros H; first [discriminate H | reflexivity].
  - handler_cases s; try reflexivity; intros H; vm_compute in H;
      discriminate H.
  - handler_cases s; intros H; first [discriminate H | reflexivity].
  - handler_cases s; try reflexivity; intros H; vm_compute in H;
      discriminate H.
  - handler_cases s; cbn [is_null orb]; intros H;
      first [discriminate H | left; vm_compute; reflexivity
            | right; vm_compute; reflexivity].
  - handler_cases s; cbn [is_null orb]; try reflexivity;
      intros [H|H]; vm_compute in H; discriminate H.
Qed.

(** ** Verdicts, the panel and whole sessions *)

(** X11. After a verification whose signature decoded, the panel is green
    when the provider's check answered true and red when it answered
    false; when the check threw, the panel has the colour its message
    alone would have. *)
Theorem panel_follows_check {host : Host} (s : State) (key : CryptoKey)
    (sigBuf : bytes) :
  pubKeyB s = Some key -> firmaB64 s <> [] ->
  base64ToBuf (firmaB64 s) = Some sigBuf ->
  panel (verificacion (st (handleVerificar s)))
  = match verifySignature key sigBuf (encode (mensaje s)) with
    | Ok true => Green
    | Ok false => Red
    | Throw err => panel (message err)
    end.
Proof.
  intros Hk Hf Hd.
  rewrite (handleVerificar_decoded s key sigBuf Hk Hf Hd).
  destruct (verifySignature key sigBuf (encode (mensaje s)))
    as [[|]|err]; cbn [negb andb].
  - exact (panel_outcome Authentic).
  - destruct (str_eqb (mensaje s) (originalMensaje s)); cbn [negb].
    + exact (panel_outcome Invalid).
    + exact (panel_outcome TamperDetected).
  - exact (panel_outcome (Error (message err))).
Qed.

Lemma panel_follows_check_witness :
  panel (verificacion (st (handleVerificar (st (simularAtaque demo_received)))))
  = Red.
Proof.
  refine (eq_trans
            (panel_follows_check (host := Toy.host)
               (st (simularAtaque demo_received)) (Toy.PublicKey 7)
               [x07; x68; x65; x6c; x6c; x6f] _ _ _) _).
  - vm_compute. reflexivity.
  - intros H. vm_compute in H. discriminate H.
  - vm_compute. reflexivity.
  - vm_compute. reflexivity.
Defined.

(** X12. The attack is detected: on a lawful provider, generate a pair,
    sign a non-empty message, click "Simular Ataque", hand the key over,
    import it and verify.  If the provider's check refuses the signature for
    the altered bytes, the verdict shown is [TamperDetected]. *)
Theorem attack_then_verify_detected {host : Host} (s : State) (seed : Seed)
    (kp : CryptoKeyPair CryptoKey) :
  Lawful host -> subtle_generateKey seed = Ok kp -> mensaje s <> [] ->
  (forall spki key sig,
     subtle_exportKey Spki (publicKey kp) = Ok spki ->
     subtle_importKey Spki spki = Ok key ->
     subtle_sign (privateKey kp) (encode (mensaje s)) = Ok sig ->
     subtle_verify key sig (encode (mensaje s ++ attack_suffix)) = Ok false) ->
  verificacion
    (session [GenerarClaves seed; Firmar; SimularAtaque; CopiarDeEmisor;
              ImportarPem; Verificar] s)
  = outcome_text TamperDetected.
Proof.
  intros L Hg Hm Hrej.
  destruct (generate_sign_session s seed kp L Hg Hm)
    as (privPem & pubPem & spki & key & sig & firma
        & He & Hi & Hs & Hb & Hfne & Hne & Hdec & E).
  specialize (Hrej spki key sig He Hi Hs).
  cbn [session dispatch]. rewrite E.
  set (s2 := setFirmaB64 firma _).
  assert (E3 : st (simularAtaque s2)
               = setMensaje (mensaje s ++ attack_suffix) s2) by reflexivity.
  rewrite E3.
  set (s3 := setMensaje _ s2).
  assert (E4 : st (copiarDeEmisor s3) = setPubPemB pubPem s3).
  { unfold copiarDeEmisor. subst s3 s2. fields. rewrite Hne. reflexivity. }
  rewrite E4.
  set (s4 := setPubPemB pubPem s3).
  assert (E5 : st (handleImportarPubEnReceptor s4)
               = setPubKeyB (Some key) s4).
  { unfold handleImportarPubEnReceptor. subst s4. fields. rewrite Hne.
    unfold importPublicKeyFromPEM. rewrite Hdec. cbn [orThrow bind].
    rewrite Hi. reflexivity. }
  rewrite E5.
  rewrite (handleVerificar_decoded (setPubKeyB (Some key) s4) key sig).
  - subst s4 s3 s2. fields. unfold verifySignature. rewrite Hrej.
    cbn [negb andb].
    destruct (str_eqb (mensaje s ++ attack_suffix) (mensaje s)) eqn:Q.
    + apply str_eqb_eq in Q. destruct (attack_suffix_changes _ Q).
    + reflexivity.
  - reflexivity.
  - subst s4 s3 s2. fields. exact Hfne.
  - subst s4 s3 s2. fields. exact (base64ToBuf_exact _ _ Hb).
Qed.

Lemma attack_then_verify_detected_witness :
  verificacion
    (session (host := Toy.host)
       [GenerarClaves (host := Toy.host) 7; Firmar; SimularAtaque;
        CopiarDeEmisor; ImportarPem; Verificar] demo_start)
  = outcome_text TamperDetected.
Proof.
  refine (attack_then_verify_detected (host := Toy.host) demo_start 7
            {| privateKey := Toy.PrivateKey 7; publicKey := Toy.PublicKey 7 |}
            Toy_lawful eq_refl _ _).
  - intros H. vm_compute in H. discriminate H.
  - intros spki key sig [= <-] [= <-] [= <-]. vm_compute. reflexivity.
Defined.

(** X13. Only "Simular Ataque" leads to the [TamperDetected] verdict:
    from a state where the message equals the snapshot and the verdict is
    not [TamperDetected], as the initial state is, any sequence of events
    without a click on "Simular Ataque" ends in a state where the message
    still equals the snapshot and the verdict is not [TamperDetected]. *)
Theorem tamper_verdict_needs_attack {host : Host} (events : list Event)
    (s : State) :
  ~ In SimularAtaque events ->
  mensaje s = originalMensaje s ->
  verificacion s <> outcome_text TamperDetected ->
  mensaje (session events s) = originalMensaje (session events s)
  /\ verificacion (session events s) <> outcome_text TamperDetected.
Proof.
  revert s; induction events as [|e events IH]; intros s Hin Hm Hv.
  - split; assumption.
  - cbn [session].
    destruct (dispatch_keeps_untampered e s) as [Hm' Hv']; try assumption.
    + intros ->. apply Hin. left. reflexivity.
    + apply IH; try assumption.
      intros H. apply Hin. right. exact H.
Qed.

Lemma tamper_verdict_needs_attack_witness :
  mensaje
    (session (host := Toy.host)
       [ChangeMensaje (js "hello"); GenerarClaves (host := Toy.host) 7;
        Firmar; ChangeMensaje (js "bye"); CopiarDeEmisor; ImportarPem;
        Verificar] initial)
  = originalMensaje
      (session (host := Toy.host)
         [ChangeMensaje (js "hello"); GenerarClaves (host := Toy.host) 7;
          Firmar; ChangeMensaje (js "bye"); CopiarDeEmisor; ImportarPem;
          Verificar] initial)
  /\ verificacion
       (session (host := Toy.host)
          [ChangeMensaje (js "hello"); GenerarClaves (host := Toy.host) 7;
           Firmar; ChangeMensaje (js "bye"); CopiarDeEmisor; ImportarPem;
           Verificar] initial)
     <> outcome_text TamperDetected.
Proof.
  refine (tamper_verdict_needs_attack (host := Toy.host)
            [ChangeMensaje (js "hello"); GenerarClaves (host := Toy.host) 7;
             Firmar; ChangeMensaje (js "bye"); CopiarDeEmisor; ImportarPem;
             Verificar] initial _ eq_refl _).
  - intros H. cbn [In] in H.
    repeat (destruct H as [H|H]; [discriminate H|]). exact H.
  - intros H. vm_compute in H. discriminate H.
Defined.

(** X14. "Simular Ataque" always changes the bytes that are verified: the
    encoding of the new message is the encoding of the old one followed by
    the 24 bytes of the marker. *)
Theorem attack_changes_signed_bytes {host : Host} (s : State) :
  encode (mensaje (st (simularAtaque s)))
  = encode (mensaje s) ++ encode attack_suffix
  /\ length (encode (mensaje (st (simularAtaque s))))
     = (length (encode (mensaje s)) + 24)%nat
  /\ encode (mensaje (st (simularAtaque s))) <> encode (mensaje s).
Proof.
  assert (E : encode (mensaje (st (simularAtaque s)))
              = encode (mensaje s) ++ encode attack_suffix).
  { change (mensaje (st (simularAtaque s)))
      with (mensaje s ++ attack_suffix).
    apply encode_app. vm_compute. reflexivity. }
  assert (L : length (encode attack_suffix) = 24%nat)
    by (vm_compute; reflexivity).
  rewrite E. repeat apply conj.
  - reflexivity.
  - rewrite length_app, L. reflexivity.
  - intros H. apply (f_equal (@length byte)) in H.
    rewrite length_app, L in H. lia.
Qed.



(** X16. In every state a session reaches from the initial one, the
    sender has both key handles or none. *)
Theorem issuer_keys_paired {host : Host} (events : list Event) :
  privKeyA (session events initial) = None
  <-> pubKeyA (session events initial) = None.
Proof.
  assert (G : forall s, (privKeyA s = None <-> pubKeyA s = None) ->
                        (privKeyA (session events s) = None
                         <-> pubKeyA (session events s) = None)).
  { induction events as [|e events IH]; intros s H; [exact H|].
    cbn [session]. apply IH, dispatch_keeps_pairing, H. }
  apply G. split; reflexivity.
Qed.

(** X17. The one promise of the component that is ever rejected is that of
    "Verificar", on a signature text that does not decode with a key
    imported; the exception is that of [atob] and the state is untouched.
    Every other handler, and "Verificar" in every other state, settles its
    promise. *)
Theorem only_verify_rejects {host : Host} (e : Event) (s : State)
    (err : JsError) :
  settled (dispatch e s) = Rejected err ->
  e = Verificar
  /\ pubKeyB s <> None /\ firmaB64 s <> []
  /\ base64ToBuf (firmaB64 s) = None
  /\ err = InvalidCharacterError
  /\ st (dispatch e s) = s.
Proof.
  destruct e; handler_cases s; intros H; try discriminate H.
  injection H as <-. repeat apply conj; try reflexivity; try assumption.
  - discriminate.
  - intros ->. discriminate.
Qed.

Lemma only_verify_rejects_witness :
  @Verificar Toy.host = Verificar
  /\ pubKeyB demo_garbled <> None /\ firmaB64 demo_garbled <> []
  /\ base64ToBuf (firmaB64 demo_garbled) = None
  /\ @InvalidCharacterError Toy.host = @InvalidCharacterError Toy.host
  /\ st (dispatch Verificar demo_garbled) = demo_garbled.
Proof.
  refine (only_verify_rejects (host := Toy.host) Verificar demo_garbled
            InvalidCharacterError _).
  vm_compute. reflexivity.
Defined.

(** X18. Only "Verificar" writes the verdict: through any sequence of
    other events, attacks and edits of the message among them, the verdict
    shown stays as it was. *)
Theorem verdict_written_by_verify_only {host : Host} (events : list Event)
    (s : State) :
  Forall (fun e => e <> Verificar) events ->
  verificacion (session events s) = verificacion s.
Proof.
  intros H. revert s. induction H as [|e events He _ IH]; intros s.
  - reflexivity.
  - cbn [session]. rewrite IH. clear IH.
    destruct e; try (handler_cases s; reflexivity).
    exfalso. apply He. reflexivity.
Qed.

Lemma verdict_written_by_verify_only_witness :
  verificacion
    (session (host := Toy.host) [SimularAtaque; ChangeMensaje (js "bye")]
       (st (handleVerificar demo_received)))
  = verificacion (st (handleVerificar demo_received)).
Proof.
  refine (verdict_written_by_verify_only (host := Toy.host)
            [SimularAtaque; ChangeMensaje (js "bye")]
            (st (handleVerificar demo_received)) _).
  repeat constructor; discriminate.
Defined.

(** X19. The message is written by its box and by "Simular Ataque" only,
    the signature text by "Firmar" and by the signature box only: an edit
    of the message leaves the old signature in place. *)
Theorem message_and_signature_writers {host : Host} (e : Event)
    (s : State) :
  (e <> SimularAtaque -> (forall v, e <> ChangeMensaje v) ->
   mensaje (st (dispatch e s)) = mensaje s)
  /\ (e <> Firmar -> (forall v, e <> ChangeFirma v) ->
      firmaB64 (st (dispatch e s)) = firmaB64 s).
Proof.
  split; intros H1 H2;
    destruct e; try (handler_cases s; reflexivity);
    try (exfalso; apply H1; reflexivity);
    exfalso; eapply H2; reflexivity.
Qed.

Lemma message_and_signature_writers_witness :
  firmaB64 (st (dispatch (ChangeMensaje (js "bye")) demo_signed))
  = firmaB64 demo_signed.
Proof.
  refine (proj2 (message_and_signature_writers (host := Toy.host)
                   (ChangeMensaje (js "bye")) demo_signed) _ _).
  - discriminate.
  - discriminate.
Defined.

(** X20. The four texts of the verdicts tell the verdicts apart, whatever
    the reason of an error. *)
Theorem verdict_texts_distinct (o1 o2 : VerificationOutcome) :
  outcome_text o1 = outcome_text o2 <-> o1 = o2.
Proof.
  split; [apply outcome_text_inj | intros ->; reflexivity].
Qed.

(** X21. In every state a session reaches from the initial one, the
    verdict is empty or one of the verdict texts; the panel then shows its
    placeholder or that text. *)
Theorem verdict_is_a_verdict {host : Host} (events : list Event) :
  (verificacion (session events initial) = []
   /\ panel_text (verificacion (session events initial))
      = js "La verificación aparecerá aquí...")
  \/ exists o,
      verificacion (session events initial) = outcome_text o
      /\ panel_text (verificacion (session events initial)) = outcome_text o.
Proof.
  assert (G : forall s,
             (verificacion s = [] \/ exists o, verificacion s = outcome_text o)
             -> verificacion (session events s) = []
                \/ exists o, verificacion (session events s) = outcome_text o).
  { induction events as [|e events IH]; intros s H; [exact H|].
    cbn [session]. apply IH. clear IH.
    destruct e; try (handler_cases s; exact H).
    cbn [dispatch]. unfold handleVerificar.
    destruct (pubKeyB s); [|exact H].
    destruct (is_empty (firmaB64 s)); [exact H|].
    destruct (base64ToBuf (firmaB64 s)); [|exact H].
    right.
    destruct (verifySignature _ _ _) as [[|]|err]; cbn [negb andb].
    - exists Authentic. reflexivity.
    - destruct (str_eqb _ _); cbn [negb];
        [exists Invalid | exists TamperDetected]; reflexivity.
    - exists (Error (message err)). reflexivity. }
  destruct (G initial (or_introl eq_refl)) as [E | [o E]]; rewrite E.
  - left. split; reflexivity.
  - right. exists o. split; [reflexivity|].
    destruct o; vm_compute; reflexivity.
Qed.

(** X22. A signing that succeeds stores a text that decodes to the bytes
    of the signature, takes the message as the snapshot and changes
    nothing else; the stored text is empty exactly when the signature
    is. *)
Theorem sign_stores_decodable {host : Host} (s : State) (key : CryptoKey)
    (sig : bytes) :
  privKeyA s = Some key -> mensaje s <> [] ->
  signMessage key (encode (mensaje s)) = Ok sig ->
  base64ToBuf (firmaB64 (st (handleFirmar s))) = Some sig
  /\ (firmaB64 (st (handleFirmar s)) = [] <-> sig = [])
  /\ originalMensaje (st (handleFirmar s)) = mensaje s
  /\ st (handleFirmar s)
     = setFirmaB64 (firmaB64 (st (handleFirmar s)))
         (setOriginalMensaje (mensaje s) s)
  /\ alerts (handleFirmar s) = [js "Mensaje firmado correctamente."].
Proof.
  intros Hk Hm Hs.
  pose proof (bufToBase64_total sig) as Hb.
  assert (E : handleFirmar s
              = finish (setFirmaB64 (base64_encode (fromCharCode sig))
                          (setOriginalMensaje (mensaje s) s))
                  [js "Mensaje firmado correctamente."]).
  { unfold handleFirmar. rewrite Hk, (is_empty_false _ Hm), Hs.
    cbn [bind]. rewrite Hb. reflexivity. }
  rewrite E. fields. repeat apply conj; try reflexivity.
  - exact (base64ToBuf_exact _ _ Hb).
  - intros H. destruct sig as [|b sig]; [reflexivity|].
    exfalso. revert H. apply base64_encode_nonempty. discriminate.
  - intros ->. reflexivity.
Qed.

Lemma sign_stores_decodable_witness :
  base64ToBuf (firmaB64 (st (handleFirmar demo_keys)))
  = Some [x07; x68; x65; x6c; x6c; x6f]
  /\ (firmaB64 (st (handleFirmar demo_keys)) = []
      <-> [x07; x68; x65; x6c; x6c; x6f] = [])
  /\ originalMensaje (st (handleFirmar demo_keys)) = mensaje demo_keys
  /\ st (handleFirmar demo_keys)
     = setFirmaB64 (firmaB64 (st (handleFirmar demo_keys)))
         (setOriginalMensaje (mensaje demo_keys) demo_keys)
  /\ alerts (handleFirmar demo_keys) = [js "Mensaje firmado correctamente."].
Proof.
  refine (sign_stores_decodable (host := Toy.host) demo_keys
            (Toy.PrivateKey 7) [x07; x68; x65; x6c; x6c; x6f] _ _ _).
  - vm_compute. reflexivity.
  - intros H. vm_compute in H. discriminate H.
  - vm_compute. reflexivity.
Defined.
